(** * kaguya/state.hpp: the host-side handle of a Lua VM

    A shallow embedding of [src/lua-support/kaguya/state.hpp]:
    the allocation callback [AllocatorFunction] with [DefaultAllocator],
    and the class [State] (construction, destruction, library loading,
    [dofile]/[dostring], the global-table accessor and the nested
    [GCType]).

    The Lua C API, the C allocation functions and the user-supplied
    callbacks are not part of the file: they are taken as parameters
    (a section variable or a class), so every theorem holds for all of
    their behaviours. *)

From Stdlib Require Import ZArith NArith String List Lia.
From stdpp Require Import base option list gmap strings.

Local Open Scope string_scope.
Local Open Scope list_scope.

(* ===================================================================== *)
(** * Part I: the allocation callback                                     *)
(* ===================================================================== *)

Module AllocatorBridge.

(** [void*] and [size_t]: an address, with 0 the null pointer, and an
    unsigned size. No arithmetic is done on either. *)
Definition pointer := N.
Definition size_type := N.
Definition NULL : pointer := 0%N.

(** A C++ call either returns a value or leaves by an exception. The
    functions of [state.hpp] contain no [throw] and no [try]: whatever a
    callee raises goes through them unchanged. *)
Inductive outcome (T : Type) : Type :=
| Returns (v : T)
| Raises (what : string).
Arguments Returns {T} v.
Arguments Raises {T} what.

Definition returned {T} (o : outcome T) : bool :=
  match o with Returns _ => true | Raises _ => false end.

Section Bridge.

(** The host C library: its heap and [std::malloc], [std::realloc],
    [std::free] acting on it. None of them raises. *)
Variable Heap : Type.
Variable std_malloc : size_type -> Heap -> pointer * Heap.
Variable std_realloc : pointer -> size_type -> Heap -> pointer * Heap.
Variable std_free : pointer -> Heap -> Heap.

(** The template parameter [Allocator]: any class with the three member
    functions used by [AllocatorFunction]. [A] is the state of the
    allocator object; a member function may change it and the heap, and
    may raise, as any C++ member function may. *)
Class Allocator (A : Type) : Type := {
  allocate : size_type -> A -> Heap -> outcome pointer * (A * Heap);
  reallocate : pointer -> size_type -> A -> Heap -> outcome pointer * (A * Heap);
  deallocate : pointer -> size_type -> A -> Heap -> outcome unit * (A * Heap)
}.

(** [struct DefaultAllocator]: no data members. *)
Inductive DefaultAllocator : Type := DefaultAllocator_obj.

#[export] Instance DefaultAllocator_Allocator : Allocator DefaultAllocator := {
  allocate n a h :=
    let '(p, h') := std_malloc n h in (Returns p, (a, h'));
  reallocate p n a h :=
    let '(q, h') := std_realloc p n h in (Returns q, (a, h'));
  deallocate p n a h :=
    (Returns tt, (a, std_free p h))
}.

(** [template<typename Allocator> void* AllocatorFunction(ud, ptr, osize, nsize)].
    [ud] points to the allocator object or is null: [Some a] is a
    pointer to an object in state [a], [None] the null pointer. The
    result is the outcome, the allocator object after the call and the
    heap after the call. *)
Definition AllocatorFunction {A} `{Allocator A}
    (ud : option A) (ptr : pointer) (osize nsize : size_type) (h : Heap)
  : outcome pointer * (option A * Heap) :=
  match ud with
  | None =>
      let '(p, h') := std_realloc ptr nsize h in (Returns p, (None, h'))
  | Some allocator =>
      if (nsize =? 0)%N then
        match deallocate ptr osize allocator h with
        | (Returns _, (a', h')) => (Returns NULL, (Some a', h'))
        | (Raises e, (a', h')) => (Raises e, (Some a', h'))
        end
      else if negb (ptr =? NULL)%N then
        let '(o, (a', h')) := reallocate ptr nsize allocator h in
        (o, (Some a', h'))
      else
        let '(o, (a', h')) := allocate nsize allocator h in
        (o, (Some a', h'))
  end.

(** What the callback is to do, case by case: with no allocator object
    the host's [realloc] answers; with one, a new size of zero frees
    the block of the old size and answers null, another new size
    reallocates an existing block or allocates a fresh one, and the
    answer is the allocator's own. *)
Inductive callback_spec {A} `{Allocator A}
    (ptr : pointer) (osize nsize : size_type) (h : Heap)
  : option A -> outcome pointer * (option A * Heap) -> Prop :=
| spec_no_allocator :
    callback_spec ptr osize nsize h None
      (Returns (fst (std_realloc ptr nsize h)),
       (None, snd (std_realloc ptr nsize h)))
| spec_free a a' h' :
    nsize = 0%N ->
    deallocate ptr osize a h = (Returns tt, (a', h')) ->
    callback_spec ptr osize nsize h (Some a) (Returns NULL, (Some a', h'))
| spec_free_raises a e a' h' :
    nsize = 0%N ->
    deallocate ptr osize a h = (Raises e, (a', h')) ->
    callback_spec ptr osize nsize h (Some a) (Raises e, (Some a', h'))
| spec_reallocate a o a' h' :
    nsize <> 0%N -> ptr <> NULL ->
    reallocate ptr nsize a h = (o, (a', h')) ->
    callback_spec ptr osize nsize h (Some a) (o, (Some a', h'))
| spec_allocate a o a' h' :
    nsize <> 0%N -> ptr = NULL ->
    allocate nsize a h = (o, (a', h')) ->
    callback_spec ptr osize nsize h (Some a) (o, (Some a', h')).

(** The callback over allocator [A] returns on every call. *)
Definition never_raises (A : Type) `{Allocator A} : Prop :=
  forall ud ptr osize nsize h,
    returned (fst (AllocatorFunction (A:=A) ud ptr osize nsize h)) = true.

End Bridge.

Arguments allocate {Heap A _} _ _ _.
Arguments reallocate {Heap A _} _ _ _ _.
Arguments deallocate {Heap A _} _ _ _ _.
Arguments AllocatorFunction {Heap} std_realloc {A _} ud ptr osize nsize h.
Arguments callback_spec {Heap} std_realloc {A _} ptr osize nsize h _ _.
Arguments never_raises {Heap} std_realloc A {_}.

(** ** A concrete host for evaluation

    A bump heap: the state is the next free address; nothing is reused.
    [std_realloc] of a null pointer allocates, of size 0 frees. *)
Module Bump.
Definition Heap := N.
Definition malloc (n : size_type) (h : Heap) : pointer * Heap :=
  if (n =? 0)%N then (NULL, h) else (h, (h + n)%N).
Definition realloc (p : pointer) (n : size_type) (h : Heap) : pointer * Heap :=
  if (n =? 0)%N then (NULL, h) else (h, (h + n)%N).
Definition free (p : pointer) (h : Heap) : Heap := h.

(** An allocator in the style of [std::allocator]: it reports exhaustion
    of its budget by raising, not by a null pointer. [budget] is the
    number of bytes it may still hand out. *)
Record Budgeted : Type := { budget : N }.

#[export] Instance Budgeted_Allocator : Allocator Heap Budgeted := {
  allocate n a h :=
    if (n <=? budget a)%N
    then let '(p, h') := malloc n h in (Returns p, ({| budget := budget a - n |}, h'))
    else (Raises "bad_alloc", (a, h));
  reallocate p n a h :=
    if (n <=? budget a)%N
    then let '(q, h') := realloc p n h in (Returns q, ({| budget := budget a - n |}, h'))
    else (Raises "bad_alloc", (a, h));
  deallocate p n a h := (Returns tt, (a, free p h))
}.
End Bump.

End AllocatorBridge.

(* ===================================================================== *)
(** * Part II: class [State]                                              *)
(* ===================================================================== *)

Module Kaguya.

(** ** Values and identities *)

(** [lua_State*]: the identity of a VM. *)
Definition lua_State := positive.

(** [lua_CFunction]: a pointer to a C function. [&default_panic] is the
    static member of [State]; [lauxlib_panic] is the panic function that
    [luaL_newstate] installs itself; every other function is named. *)
Inductive lua_CFunction : Type :=
| addr_default_panic
| lauxlib_panic
| c_function (name : string).

(** [standard::function] over [void(int status, const char *message)], the type of an error
    handler: [&stderror_out], or a callable supplied by the user, opaque
    here and told apart by a number. *)
Inductive function_type : Type :=
| addr_stderror_out
| user_function (k : positive).

(** A value on the evaluation stack of a VM. *)
Inductive TValue : Type :=
| TNil
| TBoolean (b : bool)
| TNumber (n : Z)
| TString (s : string)
| TTable (t : positive)
| TFunction (f : positive)
| TUserdata (u : positive).

(** [typedef std::pair<std::string, lua_CFunction> LoadLib] and
    [typedef std::vector<LoadLib> LoadLibs]. *)
Definition LoadLib : Type := string * lua_CFunction.
Definition LoadLibs : Type := list LoadLib.
Definition NoLoadLib : LoadLibs := [].

(** [LuaTable], as far as [dofile] and [dostring] use it: the
    default-constructed [LuaTable()] refers to nothing ([isNilref()] is
    true), any other refers to a table of the VM. *)
Inductive LuaTable : Type :=
| nilref
| table_ref (t : positive).

Definition isNilref (env : LuaTable) : bool :=
  match env with nilref => true | table_ref _ => false end.

(** [std::string::c_str()] as a C function reads it: the characters
    before the first NUL. *)
Fixpoint c_str (s : string) : string :=
  match s with
  | EmptyString => EmptyString
  | String c rest =>
      if Ascii.eqb c Ascii.zero then EmptyString else String c (c_str rest)
  end.

(** Constants of [lua.h]. *)
Definition LUA_MULTRET : Z := -1.
Definition LUA_GCSTOP : Z := 0.
Definition LUA_GCRESTART : Z := 1.
Definition LUA_GCCOLLECT : Z := 2.
Definition LUA_GCCOUNT : Z := 3.
Definition LUA_GCSTEP : Z := 5.
Definition LUA_GCSETPAUSE : Z := 6.
Definition LUA_GCSETSTEPMUL : Z := 7.
Definition LUA_GCISRUNNING : Z := 9.

(** ** The world: VMs, the handler registry, the error stream *)

(** A VM: its evaluation stack (bottom first: index 1 is the head), its
    panic function, and the rest of its state ([H], private to the
    engine). *)
Record VM (H : Type) : Type := mkVM {
  stack : list TValue;
  panicf : option lua_CFunction;
  heap : H
}.
Arguments mkVM {H} _ _ _.
Arguments stack {H} _.
Arguments panicf {H} _.
Arguments heap {H} _.

(** Every call that [State] makes to a collaborator and that changes
    something or runs foreign code, in the order made, with the status
    or result where the call has one. *)
Inductive Event : Type :=
| call_luaL_newstate (L : lua_State)
| call_lua_newstate (ud : positive) (L : lua_State)
| call_lua_atpanic (L : lua_State) (panicf : lua_CFunction)
| call_lua_close (L : lua_State)
| call_luaL_openlibs (L : lua_State)
| call_luaL_requiref (L : lua_State) (modname : string) (openf : lua_CFunction) (glb : Z)
| call_luaL_loadfile (L : lua_State) (filename : string) (status : Z)
| call_luaL_loadstring (L : lua_State) (s : string) (status : Z)
| call_LuaTable_push (L : lua_State) (env : LuaTable)
| call_push_GlobalTable (L : lua_State)
| call_lua_setupvalue (L : lua_State) (funcindex n : Z)
| call_lua_setfenv (L : lua_State) (index : Z)
| call_lua_pcall_wrap (L : lua_State) (nargs nresults : Z) (status : Z)
| call_lua_settop (L : lua_State) (index : Z)
| call_lua_gc (L : lua_State) (what data : Z) (result : Z)
| call_reg_functor_destructor (L : lua_State)
| call_registerHandler (L : lua_State) (f : function_type)
| call_handle (status : Z) (L : lua_State)
| call_handler (f : function_type) (status : Z) (message : string).

Record World (H : Type) : Type := mkWorld {
  vms : gmap lua_State (VM H);
  handlers : gmap lua_State function_type;
  cerr : string;
  calls : list Event
}.
Arguments mkWorld {H} _ _ _ _.
Arguments vms {H} _.
Arguments handlers {H} _.
Arguments cerr {H} _.
Arguments calls {H} _.

(** How a call ends: it returns, or a Lua error raised outside a
    protected call takes control away from the caller ([Thrown], with the
    world at that point), or it used a [lua_State*] that is no live VM. *)
Inductive Outcome (H A : Type) : Type :=
| Done (a : A) (w : World H)
| Thrown (w : World H)
| Undefined.
Arguments Done {H A} a w.
Arguments Thrown {H A} w.
Arguments Undefined {H A}.

Definition M (H A : Type) : Type := World H -> Outcome H A.

Definition ret {H A} (a : A) : M H A := fun w => Done a w.

Definition bind {H A B} (m : M H A) (k : A -> M H B) : M H B :=
  fun w =>
    match m w with
    | Done a w' => k a w'
    | Thrown w' => Thrown w'
    | Undefined => Undefined
    end.

Declare Scope call_scope.
Delimit Scope call_scope with call.
Notation "'do' x <- m 'in' k" := (bind m (fun x => k))
  (at level 10, x name, m at level 100, k at level 200) : call_scope.
Notation "m '>>' k" := (bind m (fun _ => k))
  (at level 65, right associativity) : call_scope.
Local Open Scope call_scope.

(** ** The Lua library

    The interpreter behind the C API is not part of the repository. What
    a call does to the evaluation stack and to the rest of the VM is a
    field of this class; [LUA_VERSION_NUM] is the macro of [lua.h], fixed
    with the library the program is built against. An [interp] is the
    part of a VM that running Lua code can change. *)
Definition interp (H : Type) : Type := list TValue * H.

(** A call that runs foreign code outside a protected call returns, or
    the code raises a Lua error and the call does not return. *)
Inductive unprotected (H : Type) : Type :=
| returns (i : interp H)
| raises (i : interp H).
Arguments returns {H} i.
Arguments raises {H} i.

Class LuaEngine (H : Type) : Type := {
  LUA_VERSION_NUM : Z;
  (** the private state of a VM just created *)
  eng_newstate : H;
  (** [luaL_openlibs(L)] *)
  eng_openlibs : interp H -> interp H;
  (** [luaL_requiref(L, modname, openf, glb)]: calls [openf] unprotected *)
  eng_requiref : string -> lua_CFunction -> Z -> interp H -> unprotected H;
  (** [luaL_loadfile(L, filename)] and [luaL_loadstring(L, s)]: status *)
  eng_loadfile : string -> interp H -> Z * interp H;
  eng_loadstring : string -> interp H -> Z * interp H;
  (** [lua_setupvalue(L, funcindex, n)] and [lua_setfenv(L, index)] *)
  eng_setupvalue : Z -> Z -> interp H -> interp H;
  eng_setfenv : Z -> interp H -> interp H;
  (** [lua_pcall_wrap(L, nargs, nresults)]: status *)
  eng_pcall : Z -> Z -> interp H -> Z * interp H;
  (** [lua_gc(L, what, data)]: leaves the stack as it is *)
  eng_gc : Z -> Z -> H -> Z * H;
  (** [nativefunction::reg_functor_destructor(L)] *)
  eng_reg_functor_destructor : interp H -> interp H;
  (** the global table of a VM *)
  eng_globals : H -> positive;
  (** how [lua_tostring] writes a number *)
  eng_number_to_string : Z -> string
}.

Section API.
Context {H : Type} {E : LuaEngine H}.

Definition set_vms (m : gmap lua_State (VM H)) (w : World H) : World H :=
  mkWorld m (handlers w) (cerr w) (calls w).
Definition set_handlers (m : gmap lua_State function_type) (w : World H) : World H :=
  mkWorld (vms w) m (cerr w) (calls w).
Definition set_cerr (s : string) (w : World H) : World H :=
  mkWorld (vms w) (handlers w) s (calls w).
Definition set_calls (l : list Event) (w : World H) : World H :=
  mkWorld (vms w) (handlers w) (cerr w) l.

(** Record a call. *)
Definition log (e : Event) : M H unit :=
  fun w => Done tt (set_calls (calls w ++ [e]) w).

(** Run [f] on the VM that [L] points to. *)
Definition on_vm {A} (L : lua_State) (f : VM H -> A * VM H) : M H A :=
  fun w =>
    match vms w !! L with
    | Some v => let '(a, v') := f v in Done a (set_vms (<[L := v']> (vms w)) w)
    | None => Undefined
    end.

Definition on_interp {A} (L : lua_State) (f : interp H -> A * interp H) : M H A :=
  on_vm L (fun v =>
    let '(a, (s, h)) := f (stack v, heap v) in (a, mkVM s (panicf v) h)).

(** *** Stack primitives of the C API *)

Definition lua_gettop (L : lua_State) : M H Z :=
  on_vm L (fun v => (Z.of_nat (length (stack v)), v)).

(** [lua_settop]: a non-negative index is the new depth (nil fills the
    new slots); a negative one is relative to the top. *)
Definition settop (index : Z) (s : list TValue) : list TValue :=
  let n := Z.to_nat (if (0 <=? index)%Z then index
                     else (Z.of_nat (length s) + index + 1)%Z) in
  take n s ++ replicate (n - length s) TNil.

Definition lua_settop (L : lua_State) (index : Z) : M H unit :=
  log (call_lua_settop L index) >>
  on_vm L (fun v => (tt, mkVM (settop index (stack v)) (panicf v) (heap v))).

Definition push (x : TValue) (L : lua_State) : M H unit :=
  on_vm L (fun v => (tt, mkVM (stack v ++ [x]) (panicf v) (heap v))).

(** [lua_tostring(L, -1)]: the string on top of the stack, a number
    written out, no string for anything else. *)
Definition tostring (x : TValue) : option string :=
  match x with
  | TString s => Some s
  | TNumber n => Some (eng_number_to_string n)
  | _ => None
  end.

Definition lua_tostring_top (L : lua_State) : M H (option string) :=
  on_vm L (fun v => (last (stack v) ≫= tostring, v)).

(** *** The rest of the C API, through the engine *)

Definition luaL_newstate : M H lua_State :=
  fun w =>
    let L := fresh (dom (vms w)) in
    Done L (set_calls (calls w ++ [call_luaL_newstate L])
             (set_vms (<[L := mkVM [] (Some lauxlib_panic) eng_newstate]> (vms w)) w)).

(** [lua_newstate(f, ud)]: no panic function is set. The allocation
    callback and its user data only serve the VM's memory. *)
Definition lua_newstate (ud : positive) : M H lua_State :=
  fun w =>
    let L := fresh (dom (vms w)) in
    Done L (set_calls (calls w ++ [call_lua_newstate ud L])
             (set_vms (<[L := mkVM [] None eng_newstate]> (vms w)) w)).

Definition lua_atpanic (L : lua_State) (f : lua_CFunction) : M H (option lua_CFunction) :=
  log (call_lua_atpanic L f) >>
  on_vm L (fun v => (panicf v, mkVM (stack v) (Some f) (heap v))).

Definition lua_close (L : lua_State) : M H unit :=
  log (call_lua_close L) >>
  fun w =>
    match vms w !! L with
    | Some _ => Done tt (set_vms (delete L (vms w)) w)
    | None => Undefined
    end.

Definition luaL_openlibs (L : lua_State) : M H unit :=
  log (call_luaL_openlibs L) >>
  on_interp L (fun i => (tt, eng_openlibs i)).

Definition luaL_requiref (L : lua_State) (modname : string)
    (openf : lua_CFunction) (glb : Z) : M H unit :=
  log (call_luaL_requiref L modname openf glb) >>
  fun w =>
    match vms w !! L with
    | Some v =>
        match eng_requiref modname openf glb (stack v, heap v) with
        | returns (s, h) =>
            Done tt (set_vms (<[L := mkVM s (panicf v) h]> (vms w)) w)
        | raises (s, h) =>
            Thrown (set_vms (<[L := mkVM s (panicf v) h]> (vms w)) w)
        end
    | None => Undefined
    end.

Definition luaL_loadfile (L : lua_State) (filename : string) : M H Z :=
  do status <- on_interp L (eng_loadfile filename) in
  log (call_luaL_loadfile L filename status) >> ret status.

Definition luaL_loadstring (L : lua_State) (s : string) : M H Z :=
  do status <- on_interp L (eng_loadstring s) in
  log (call_luaL_loadstring L s status) >> ret status.

Definition lua_setupvalue (L : lua_State) (funcindex n : Z) : M H unit :=
  log (call_lua_setupvalue L funcindex n) >>
  on_interp L (fun i => (tt, eng_setupvalue funcindex n i)).

Definition lua_setfenv (L : lua_State) (index : Z) : M H unit :=
  log (call_lua_setfenv L index) >>
  on_interp L (fun i => (tt, eng_setfenv index i)).

Definition lua_pcall_wrap (L : lua_State) (nargs nresults : Z) : M H Z :=
  do status <- on_interp L (eng_pcall nargs nresults) in
  log (call_lua_pcall_wrap L nargs nresults status) >> ret status.

Definition lua_gc (L : lua_State) (what data : Z) : M H Z :=
  do result <- on_vm L (fun v =>
    let '(r, h) := eng_gc what data (heap v) in (r, mkVM (stack v) (panicf v) h)) in
  log (call_lua_gc L what data result) >> ret result.

Definition reg_functor_destructor (L : lua_State) : M H unit :=
  log (call_reg_functor_destructor L) >>
  on_interp L (fun i => (tt, eng_reg_functor_destructor i)).

(** [lua_type_traits<GlobalTable>::push(L, GlobalTable())] *)
Definition push_GlobalTable (L : lua_State) : M H unit :=
  log (call_push_GlobalTable L) >>
  on_vm L (fun v =>
    (tt, mkVM (stack v ++ [TTable (eng_globals (heap v))]) (panicf v) (heap v))).

(** [env.push()]: the table referred to, or nil for the nil reference,
    goes on top of the stack. *)
Definition LuaTable_push (L : lua_State) (env : LuaTable) : M H unit :=
  log (call_LuaTable_push L env) >>
  match env with
  | nilref => push TNil L
  | table_ref t => push (TTable t) L
  end.

End API.

(** ** Collaborators inside the repository, outside this file *)

Section Collaborators.
Context {H : Type} {E : LuaEngine H}.

Definition newline : string := String (Ascii.ascii_of_nat 10) EmptyString.

(** [static void stderror_out(int status, const char* message)]:
    [std::cerr << message << std::endl]. *)
Definition stderror_out (status : Z) (message : string) : M H unit :=
  fun w => Done tt (set_cerr (cerr w +:+ message +:+ newline) w).

(** Calling a handler. A user's callable is opaque: the call is
    recorded, and it returns. *)
Definition call_function (f : function_type) (status : Z) (message : string)
  : M H unit :=
  log (call_handler f status message) >>
  match f with
  | addr_stderror_out => stderror_out status message
  | user_function _ => ret tt
  end.

(** Modelled from the spec: [ErrorHandler::getHandler] of
    [kaguya/error_handler.hpp], missing from the sources. The registry
    maps a VM identity to its one handler; the result is empty when the
    identity has none. *)
Definition getHandler (L : lua_State) : M H (option function_type) :=
  fun w => Done (handlers w !! L) w.

(** Modelled from the spec: [ErrorHandler::registerHandler] of
    [kaguya/error_handler.hpp], missing from the sources. It installs
    the handler for the identity or replaces the one there. *)
Definition registerHandler (L : lua_State) (f : function_type) : M H unit :=
  log (call_registerHandler L f) >>
  fun w => Done tt (set_handlers (<[L := f]> (handlers w)) w).

(** Modelled from the spec: [ErrorHandler::handle(status, L)] of
    [kaguya/error_handler.hpp], missing from the sources. It reads the
    error message left on top of the stack, invokes the registered
    handler with the status and the message, then pops the message. *)
Definition handle (status : Z) (L : lua_State) : M H unit :=
  log (call_handle status L) >>
  do message <- lua_tostring_top L in
  do handler <- getHandler L in
  match handler with
  | Some f => call_function f status (default "" message)
  | None => ret tt
  end >>
  lua_settop L (-2).

(** Modelled from the spec: [util::ScopedSavedStack] of
    [kaguya/utility.hpp], missing from the sources. The guard records
    the stack top when it is declared and restores exactly that top when
    its scope is left by a return. [body] is the rest of the scope. *)
Definition ScopedSavedStack {A} (L : lua_State) (body : M H A) : M H A :=
  do saved_top_index <- lua_gettop L in
  do result <- body in
  lua_settop L saved_top_index >>
  ret result.

End Collaborators.

(** ** [class State] *)

(** The data members. [allocator_holder_] is the shared pointer to the
    allocator object (told apart by a number), empty when the VM uses its
    built-in allocator. *)
Record State : Type := mkState {
  allocator_holder_ : option positive;
  state_ : lua_State;
  created_ : bool
}.

(** What [operator[]] returns: the constructor arguments of
    [TableKeyReference<KEY>(state, table_index, key, revstacktop, NoTypeCheck())]. *)
Record TableKeyReference : Type := mkTableKeyReference {
  ref_state : lua_State;
  ref_table_index : Z;
  ref_key : string;
  ref_stack_top : Z
}.

(** A compiled unit as [loadfile] and [loadstring] return it: the chunk,
    or the nil reference after a failed compilation. *)
Inductive LuaFunction : Type :=
| nil_function
| chunk (f : TValue).

Section StateClass.
Context {H : Type} {E : LuaEngine H}.

Definition setErrorHandler (this : State) (errorfunction : function_type) : M H unit :=
  ScopedSavedStack (state_ this)
    (registerHandler (state_ this) errorfunction).

Definition init (this : State) : M H unit :=
  do handler <- getHandler (state_ this) in
  (if handler is Some _ then ret tt
   else setErrorHandler this addr_stderror_out) >>
  reg_functor_destructor (state_ this).

(** [void openlibs()] *)
Definition openlibs (this : State) : M H unit :=
  ScopedSavedStack (state_ this) (luaL_openlibs (state_ this)).

(** [void openlib(const LoadLib& lib)] *)
Definition openlib (this : State) (lib : LoadLib) : M H unit :=
  ScopedSavedStack (state_ this)
    (luaL_requiref (state_ this) (c_str (fst lib)) (snd lib) 1).

(** [void openlibs(const LoadLibs& libs)]: the [for] loop over the
    vector, from [begin()] to [end()]. *)
Fixpoint openlibs_list (this : State) (libs : LoadLibs) : M H unit :=
  match libs with
  | [] => ret tt
  | it :: rest => openlib this it >> openlibs_list this rest
  end.

(** *** Constructors and destructor *)

(** [State()] *)
Definition State_default : M H State :=
  do L <- luaL_newstate in
  let this := mkState None L true in
  lua_atpanic L addr_default_panic >>
  init this >>
  openlibs this >>
  ret this.

(** [State(shared_ptr<Allocator> allocator)] *)
Definition State_allocator (allocator : positive) : M H State :=
  do L <- lua_newstate allocator in
  let this := mkState (Some allocator) L true in
  lua_atpanic L addr_default_panic >>
  init this >>
  openlibs this >>
  ret this.

(** [State(const LoadLibs& libs)] *)
Definition State_libs (libs : LoadLibs) : M H State :=
  do L <- luaL_newstate in
  let this := mkState None L true in
  lua_atpanic L addr_default_panic >>
  init this >>
  openlibs_list this libs >>
  ret this.

(** [State(const LoadLibs& libs, shared_ptr<Allocator> allocator)] *)
Definition State_libs_allocator (libs : LoadLibs) (allocator : positive) : M H State :=
  do L <- lua_newstate allocator in
  let this := mkState (Some allocator) L true in
  lua_atpanic L addr_default_panic >>
  init this >>
  openlibs_list this libs >>
  ret this.

(** [State(lua_State* lua)] *)
Definition State_adopt (lua : lua_State) : M H State :=
  let this := mkState None lua false in
  init this >>
  ret this.

(** [~State()] *)
Definition State_destroy (this : State) : M H unit :=
  if created_ this then lua_close (state_ this) else ret tt.

(** *** Loading and running scripts *)

(** Modelled from the spec: [LuaFunction::loadstring] and
    [LuaFunction::loadfile] of [kaguya/lua_ref_function.hpp], missing
    from the sources. Under a stack guard the compiler is invoked; on
    failure the status goes through [handle] and the unit is the nil
    reference; otherwise the unit is the chunk the compiler left on
    top of the stack. *)
Definition compiled_unit (L : lua_State) (load : M H Z) : M H LuaFunction :=
  ScopedSavedStack L
    (do status <- load in
     if negb (status =? 0)%Z then
       handle status L >> ret nil_function
     else
       do top <- on_vm L (fun v => (last (stack v), v)) in
       ret (from_option chunk nil_function top)).

Definition LuaFunction_loadfile (L : lua_State) (file : string) : M H LuaFunction :=
  compiled_unit L (luaL_loadfile L file).
Definition LuaFunction_loadstring (L : lua_State) (str : string) : M H LuaFunction :=
  compiled_unit L (luaL_loadstring L str).

(** [LuaFunction loadfile(const char* file)], [loadfile(const std::string&)] *)
Definition loadfile (this : State) (file : string) : M H LuaFunction :=
  LuaFunction_loadfile (state_ this) file.
Definition loadfile_string (this : State) (file : string) : M H LuaFunction :=
  LuaFunction_loadfile (state_ this) (c_str file).

(** [LuaFunction loadstring(const char* str)], [loadstring(const std::string&)] *)
Definition loadstring (this : State) (str : string) : M H LuaFunction :=
  LuaFunction_loadstring (state_ this) str.
Definition loadstring_string (this : State) (str : string) : M H LuaFunction :=
  LuaFunction_loadstring (state_ this) (c_str str).

(** [bool dofile(const char* file, const LuaTable& env = LuaTable())].
    Of the two arms of [#if LUA_VERSION_NUM >= 502] the preprocessor
    keeps one for the whole build. *)
Definition dofile (this : State) (file : string) (env : LuaTable) : M H bool :=
  ScopedSavedStack (state_ this)
    (do status <- luaL_loadfile (state_ this) file in
     if negb (status =? 0)%Z then
       handle status (state_ this) >> ret false
     else
       (if negb (isNilref env) then
          (* register _ENV *)
          LuaTable_push (state_ this) env >>
          if (502 <=? LUA_VERSION_NUM)%Z
          then lua_setupvalue (state_ this) (-2) 1
          else lua_setfenv (state_ this) (-2)
        else ret tt) >>
       do status <- lua_pcall_wrap (state_ this) 0 LUA_MULTRET in
       if negb (status =? 0)%Z then
         handle status (state_ this) >> ret false
       else ret true).

(** [bool dofile(const std::string& file, const LuaTable& env = LuaTable())] *)
Definition dofile_string (this : State) (file : string) (env : LuaTable) : M H bool :=
  dofile this (c_str file) env.

(** [bool dostring(const char* str, const LuaTable& env = LuaTable())] *)
Definition dostring (this : State) (str : string) (env : LuaTable) : M H bool :=
  ScopedSavedStack (state_ this)
    (do status <- luaL_loadstring (state_ this) str in
     if negb (status =? 0)%Z then
       handle status (state_ this) >> ret false
     else
       (if negb (isNilref env) then
          (* register _ENV *)
          LuaTable_push (state_ this) env >>
          if (502 <=? LUA_VERSION_NUM)%Z
          then lua_setupvalue (state_ this) (-2) 1
          else lua_setfenv (state_ this) (-2)
        else ret tt) >>
       do status <- lua_pcall_wrap (state_ this) 0 LUA_MULTRET in
       if negb (status =? 0)%Z then
         handle status (state_ this) >> ret false
       else ret true).

(** [bool dostring(const std::string& str, const LuaTable& env = LuaTable())] *)
Definition dostring_string (this : State) (str : string) (env : LuaTable) : M H bool :=
  dostring this (c_str str) env.

(** [bool operator()(const std::string& str)] and
    [bool operator()(const char* str)]: [return dostring(str)]. *)
Definition call_string (this : State) (str : string) : M H bool :=
  dostring_string this str nilref.
Definition call (this : State) (str : string) : M H bool :=
  dostring this str nilref.

(** *** The global table *)

(** [TableKeyReference<std::string> operator[](const std::string& str)];
    the overload on [const char*] has the same body. *)
Definition index (this : State) (str : string) : M H TableKeyReference :=
  do stack_top <- lua_gettop (state_ this) in
  push_GlobalTable (state_ this) >>
  let table_index := (stack_top + 1)%Z in
  ret (mkTableKeyReference (state_ this) table_index str stack_top).

End StateClass.

(** ** [struct State::GCType] *)

(** Its one data member. *)
Record GCType : Type := mkGCType { gc_state_ : lua_State }.

Section GC.
Context {H : Type} {E : LuaEngine H}.

Definition collect (g : GCType) : M H unit :=
  lua_gc (gc_state_ g) LUA_GCCOLLECT 0 >> ret tt.

(** [bool step()] and [bool step(int size)] *)
Definition step (g : GCType) : M H bool :=
  do r <- lua_gc (gc_state_ g) LUA_GCSTEP 0 in ret (r =? 1)%Z.
Definition step_size (g : GCType) (size : Z) : M H bool :=
  do r <- lua_gc (gc_state_ g) LUA_GCSTEP size in ret (r =? 1)%Z.

Definition enable (g : GCType) : M H unit :=
  lua_gc (gc_state_ g) LUA_GCRESTART 0 >> ret tt.
Definition disable (g : GCType) : M H unit :=
  lua_gc (gc_state_ g) LUA_GCSTOP 0 >> ret tt.

Definition restart (g : GCType) : M H unit := enable g.
Definition stop (g : GCType) : M H unit := disable g.

Definition count (g : GCType) : M H Z :=
  lua_gc (gc_state_ g) LUA_GCCOUNT 0.
Definition steppause (g : GCType) (value : Z) : M H Z :=
  lua_gc (gc_state_ g) LUA_GCSETPAUSE value.
Definition setstepmul (g : GCType) (value : Z) : M H Z :=
  lua_gc (gc_state_ g) LUA_GCSETSTEPMUL value.

(** [isenabled] and [isrunning] are declared under
    [#if LUA_VERSION_NUM >= 502] only: on an older library the class
    has no such member. *)
Definition isenabled : option (GCType -> M H bool) :=
  if (502 <=? LUA_VERSION_NUM)%Z
  then Some (fun g =>
         do r <- lua_gc (gc_state_ g) LUA_GCISRUNNING 0 in
         ret (negb (r =? 0)%Z))
  else None.
Definition isrunning : option (GCType -> M H bool) := isenabled.

(** The class offers the query. *)
Definition provides_isenabled : Prop := is_Some isenabled.

(** [GCType gc() const] and [void garbageCollect()] *)
Definition gc (this : State) : GCType := mkGCType (state_ this).
Definition garbageCollect (this : State) : M H unit := collect (gc this).

End GC.

(** ** Observations on a world and on a run *)

Section Observations.
Context {H : Type} {E : LuaEngine H}.

(** [L] points to a VM that exists. *)
Definition live (L : lua_State) (w : World H) : Prop := is_Some (vms w !! L).

(** What [lua_gettop(L)] would answer in [w]. *)
Definition depth (L : lua_State) (w : World H) : option Z :=
  (fun v => Z.of_nat (length (stack v))) <$> vms w !! L.

(** The panic function of [L] in [w]. *)
Definition panic_of (L : lua_State) (w : World H) : option lua_CFunction :=
  vms w !! L ≫= panicf.

(** The calls made between [w] and a later world [w']. *)
Definition calls_since (w w' : World H) : list Event :=
  drop (length (calls w)) (calls w').

(** The world a call ends in, if it is defined. *)
Definition final {A} (o : Outcome H A) : option (World H) :=
  match o with
  | Done _ w => Some w
  | Thrown w => Some w
  | Undefined => None
  end.

(** The registry after "install [&stderror_out] for [L] unless [L] has
    a handler". *)
Definition defaulted (L : lua_State) (m : gmap lua_State function_type)
  : gmap lua_State function_type :=
  match m !! L with
  | Some _ => m
  | None => <[L := addr_stderror_out]> m
  end.

(** What [handle] passes to the handler: the string on top of the
    stack of [v], empty when there is none. *)
Definition message_on_top (v : VM H) : string :=
  default "" (last (stack v) ≫= tostring).

(** The invocation of the handler registered for [L] in [R], if any,
    and what it adds to the error stream [c]. *)
Definition handler_calls (R : gmap lua_State function_type) (L : lua_State)
    (status : Z) (message : string) : list Event :=
  match R !! L with
  | Some f => [call_handler f status message]
  | None => []
  end.
Definition handler_output (R : gmap lua_State function_type) (L : lua_State)
    (message : string) (c : string) : string :=
  match R !! L with
  | Some addr_stderror_out => c +:+ message +:+ newline
  | _ => c
  end.

(** The guard's own [lua_settop] and the invocation of a handler are
    bookkeeping; the other calls are the ones a script run is made of. *)
Definition bookkeeping (e : Event) : bool :=
  match e with
  | call_lua_settop _ _ | call_handler _ _ _ => true
  | _ => false
  end.
Definition api_calls (l : list Event) : list Event :=
  List.filter (fun e => negb (bookkeeping e)) l.

(** The statuses returned by the compile step and the protected call,
    in order. *)
Definition status_of (e : Event) : option Z :=
  match e with
  | call_luaL_loadfile _ _ status
  | call_luaL_loadstring _ _ status
  | call_lua_pcall_wrap _ _ _ status => Some status
  | _ => None
  end.
Definition statuses (l : list Event) : list Z := omap status_of l.

(** A call that binds an environment to a chunk. *)
Definition env_call (e : Event) : bool :=
  match e with
  | call_LuaTable_push _ _ | call_lua_setupvalue _ _ _ | call_lua_setfenv _ _ => true
  | _ => false
  end.

(** The one binding call of this build. *)
Definition register_ENV_call (L : lua_State) : Event :=
  if (502 <=? LUA_VERSION_NUM)%Z
  then call_lua_setupvalue L (-2) 1
  else call_lua_setfenv L (-2).

Definition env_calls (L : lua_State) (env : LuaTable) : list Event :=
  if isNilref env then [] else [call_LuaTable_push L env; register_ENV_call L].

(** A script to run: a file path or a text. *)
Inductive Script : Type :=
| from_file (file : string)
| from_string (str : string).

Definition run_script (this : State) (src : Script) (env : LuaTable) : M H bool :=
  match src with
  | from_file file => dofile this file env
  | from_string str => dostring this str env
  end.

Definition load_call (L : lua_State) (src : Script) (status : Z) : Event :=
  match src with
  | from_file file => call_luaL_loadfile L file status
  | from_string str => call_luaL_loadstring L str status
  end.

(** The three ways a run goes: the calls made and the result. *)
Inductive run_shape (L : lua_State) (src : Script) (env : LuaTable)
  : list Event -> bool -> Prop :=
| compile_failed (status : Z) :
    status ≠ 0%Z ->
    run_shape L src env [load_call L src status; call_handle status L] false
| call_failed (status : Z) :
    status ≠ 0%Z ->
    run_shape L src env
      (load_call L src 0 :: env_calls L env ++
       [call_lua_pcall_wrap L 0 LUA_MULTRET status; call_handle status L]) false
| run_succeeded :
    run_shape L src env
      (load_call L src 0 :: env_calls L env ++
       [call_lua_pcall_wrap L 0 LUA_MULTRET 0]) true.

(** *** The public operations on a handle *)

Inductive GCOperation : Type :=
| gc_collect | gc_step | gc_step_size (size : Z)
| gc_restart | gc_stop | gc_enable | gc_disable
| gc_count | gc_steppause (value : Z) | gc_setstepmul (value : Z)
| gc_isenabled | gc_isrunning.

Inductive Operation : Type :=
| op_setErrorHandler (errorfunction : function_type)
| op_openlibs
| op_openlib (lib : LoadLib)
| op_openlibs_list (libs : LoadLibs)
| op_loadfile (file : string)
| op_loadfile_string (file : string)
| op_loadstring (str : string)
| op_loadstring_string (str : string)
| op_dofile (file : string) (env : LuaTable)
| op_dofile_string (file : string) (env : LuaTable)
| op_dostring (str : string) (env : LuaTable)
| op_dostring_string (str : string) (env : LuaTable)
| op_call (str : string)
| op_call_string (str : string)
| op_gc (o : GCOperation)
| op_garbageCollect
| op_index (str : string).

Definition void {A} (m : M H A) : M H unit := bind m (fun _ => ret tt).

(** A member that exists on some builds only does nothing where it is
    missing. *)
Definition if_declared {A} (f : option (GCType -> M H A)) (g : GCType) : M H unit :=
  match f with
  | Some q => void (q g)
  | None => ret tt
  end.

Definition run_gc (g : GCType) (o : GCOperation) : M H unit :=
  match o with
  | gc_collect => collect g
  | gc_step => void (step g)
  | gc_step_size size => void (step_size g size)
  | gc_restart => restart g
  | gc_stop => stop g
  | gc_enable => enable g
  | gc_disable => disable g
  | gc_count => void (count g)
  | gc_steppause value => void (steppause g value)
  | gc_setstepmul value => void (setstepmul g value)
  | gc_isenabled => if_declared isenabled g
  | gc_isrunning => if_declared isrunning g
  end.

Definition run (this : State) (op : Operation) : M H unit :=
  match op with
  | op_setErrorHandler f => setErrorHandler this f
  | op_openlibs => openlibs this
  | op_openlib lib => openlib this lib
  | op_openlibs_list libs => openlibs_list this libs
  | op_loadfile file => void (loadfile this file)
  | op_loadfile_string file => void (loadfile_string this file)
  | op_loadstring str => void (loadstring this str)
  | op_loadstring_string str => void (loadstring_string this str)
  | op_dofile file env => void (dofile this file env)
  | op_dofile_string file env => void (dofile_string this file env)
  | op_dostring str env => void (dostring this str env)
  | op_dostring_string str env => void (dostring_string this str env)
  | op_call str => void (call this str)
  | op_call_string str => void (call_string this str)
  | op_gc o => run_gc (gc this) o
  | op_garbageCollect => garbageCollect this
  | op_index str => void (index this str)
  end.

Definition is_index (op : Operation) : bool :=
  match op with op_index _ => true | _ => false end.

Definition loads_library (op : Operation) : bool :=
  match op with op_openlib _ | op_openlibs_list _ => true | _ => false end.

(** An operation is stack-neutral from [w] when, if it returns, the
    depth observed is the one observed on entry. *)
Definition stack_neutral (this : State) (op : Operation) (w : World H) : Prop :=
  forall w', run this op w = Done tt w' ->
             depth (state_ this) w' = depth (state_ this) w.

(** *** The ways to construct a handle *)

Inductive Constructor : Type :=
| ctor_default
| ctor_allocator (allocator : positive)
| ctor_libs (libs : LoadLibs)
| ctor_libs_allocator (libs : LoadLibs) (allocator : positive)
| ctor_adopt (lua : lua_State).

Definition construct (c : Constructor) : M H State :=
  match c with
  | ctor_default => State_default
  | ctor_allocator a => State_allocator a
  | ctor_libs libs => State_libs libs
  | ctor_libs_allocator libs a => State_libs_allocator libs a
  | ctor_adopt lua => State_adopt lua
  end.

Definition fresh_mode (c : Constructor) : bool :=
  match c with ctor_adopt _ => false | _ => true end.

Definition takes_libs (c : Constructor) : bool :=
  match c with ctor_libs _ | ctor_libs_allocator _ _ => true | _ => false end.

Definition allocator_of (c : Constructor) : option positive :=
  match c with
  | ctor_allocator a | ctor_libs_allocator _ a => Some a
  | _ => None
  end.

(** The VM a constructor works on: the one adopted, or the one the
    library creates next. *)
Definition vm_of (c : Constructor) (w : World H) : lua_State :=
  match c with
  | ctor_adopt lua => lua
  | _ => fresh (dom (vms w))
  end.

(** The call that loads an entry, and the calls of a run that load
    libraries. *)
Definition requiref_call (L : lua_State) (lib : LoadLib) : Event :=
  call_luaL_requiref L (c_str (fst lib)) (snd lib) 1.
Definition is_requiref (e : Event) : bool :=
  match e with call_luaL_requiref _ _ _ _ => true | _ => false end.
Definition library_calls (l : list Event) : list Event :=
  List.filter is_requiref l.

(** Adopting [lua] installs the panic trap when the VM has no panic
    function. *)
Definition adoption_installs_panic_trap (lua : lua_State) (w : World H) : Prop :=
  panic_of lua w = None ->
  forall this w', State_adopt lua w = Done this w' ->
                  panic_of lua w' = Some addr_default_panic.

(** Every entry of [libs] is attempted, in order, however the loop
    ends. *)
Definition attempts_all (this : State) (libs : LoadLibs) (w : World H) : Prop :=
  exists w',
    final (openlibs_list this libs w) = Some w'
    /\ library_calls (calls_since w w')
       = map (requiref_call (state_ this)) libs.

(** A call returns with the stack of [L] at depth [n] and with the VMs
    other than [L], collected in [V], as they were. *)
Definition returns_at {A} (L : lua_State) (V : gmap lua_State (VM H))
    (n : nat) (o : Outcome H A) : Prop :=
  exists a v' R' c' cs',
    o = Done a (mkWorld (<[L:=v']> V) R' c' cs') /\ length (stack v') = n.

(** *** Further observations *)

(** The calls [init] makes on a VM whose stack has depth [n], given the
    registry [R] it finds. *)
Definition init_calls (L : lua_State) (R : gmap lua_State function_type)
    (n : nat) : list Event :=
  match R !! L with
  | Some _ => []
  | None => [call_registerHandler L addr_stderror_out;
             call_lua_settop L (Z.of_nat n)]
  end ++ [call_reg_functor_destructor L].

(** The call that creates the VM of a fresh constructor. *)
Definition create_call (k : Constructor) (L : lua_State) : Event :=
  match allocator_of k with
  | Some a => call_lua_newstate a L
  | None => call_luaL_newstate L
  end.

(** The calls that report a failure: [handle] and the handler's own
    invocation. *)
Definition is_report (e : Event) : bool :=
  match e with
  | call_handle _ _ | call_handler _ _ _ => true
  | _ => false
  end.
Definition reports (l : list Event) : list Event := List.filter is_report l.

(** What a fresh constructor does after the panic trap and [init]:
    [openlibs()] or [openlibs(libs)]. *)
Definition load_of (k : Constructor) (this : State) : M H unit :=
  match k with
  | ctor_libs libs | ctor_libs_allocator libs _ => openlibs_list this libs
  | _ => openlibs this
  end.

(** The VM of a fresh constructor once the trap is set and [init] is
    done. *)
Definition set_up : VM H :=
  mkVM (fst (eng_reg_functor_destructor ([], eng_newstate)))
    (Some addr_default_panic)
    (snd (eng_reg_functor_destructor ([], eng_newstate))).

(** The call that loads the standard libraries. *)
Definition is_openlibs (e : Event) : bool :=
  match e with call_luaL_openlibs _ => true | _ => false end.

(** A text up to its first NUL, the NUL itself, and anything after. *)
Definition with_tail (s t : string) : string :=
  c_str s +:+ String Ascii.zero t.

(** *** What the library computes during a script run *)

(** The compile step of a script on the state [i]: its status and the
    state it leaves. *)
Definition compile_step (src : Script) (i : interp H) : Z * interp H :=
  match src with
  | from_file file => eng_loadfile file i
  | from_string str => eng_loadstring str i
  end.

(** The state a chunk is called on. With the nil reference it is the
    state [i] the compile step left. With a table it is [i] after the
    table is pushed and bound to the chunk below it by the call of this
    build. *)
Definition bind_env (env : LuaTable) (i : interp H) : interp H :=
  match env with
  | nilref => i
  | table_ref t =>
      if (502 <=? LUA_VERSION_NUM)%Z
      then eng_setupvalue (-2) 1 (fst i ++ [TTable t], snd i)
      else eng_setfenv (-2) (fst i ++ [TTable t], snd i)
  end.

(** The protected call of the chunk compiled from [src] on [i]: its
    status and the state it leaves. *)
Definition call_step (src : Script) (env : LuaTable) (i : interp H)
  : Z * interp H :=
  eng_pcall 0 LUA_MULTRET (bind_env env (snd (compile_step src i))).

(** The step that decides a run: the compile step when its status is
    not zero, the protected call otherwise. *)
Definition deciding_step (src : Script) (env : LuaTable) (i : interp H)
  : Z * interp H :=
  if (fst (compile_step src i) =? 0)%Z
  then call_step src env i
  else compile_step src i.

(** The string on top of the stack of [i], empty when there is none. *)
Definition message_of (i : interp H) : string :=
  default "" (last (fst i) ≫= tostring).

(** The calls that bind [env] to a chunk on this build. *)
Definition binding_calls (L : lua_State) (env : LuaTable) : list Event :=
  match env with
  | nilref => []
  | table_ref t =>
      [ call_LuaTable_push L (table_ref t);
        if (502 <=? LUA_VERSION_NUM)%Z
        then call_lua_setupvalue L (-2) 1
        else call_lua_setfenv L (-2) ]
  end.

(** The entries of [pre] load from [w], and in the state they leave the
    registrar of [lib] raises. *)
Definition raises_after (this : State) (pre : LoadLibs) (lib : LoadLib)
    (w : World H) : Prop :=
  exists w1 v1 i,
    openlibs_list this pre w = Done tt w1
    /\ vms w1 !! state_ this = Some v1
    /\ eng_requiref (c_str (fst lib)) (snd lib) 1 (stack v1, heap v1) = raises i.

End Observations.

(** ** A small engine for evaluation

    Enough of an interpreter to run the definitions on concrete inputs:
    a source text starting with [!] does not compile, a chunk whose text
    starts with [error] fails when called, and the registrar named
    [broken] raises an error. The private state keeps the texts of the
    compiled chunks, the modules loaded and the collector's switch. *)
Module Mini.

Record Heap : Type := mkHeap {
  chunks : list string;
  modules : list string;
  collecting : bool
}.

Definition LUA_ERRRUN : Z := 2.
Definition LUA_ERRSYNTAX : Z := 3.

Definition compile (text : string) (i : interp Heap) : Z * interp Heap :=
  let '(s, h) := i in
  if String.prefix "!" text
  then (LUA_ERRSYNTAX, (s ++ [TString ("syntax error near " +:+ text)], h))
  else (0%Z, (s ++ [TFunction (Pos.of_succ_nat (length (chunks h)))],
             mkHeap (chunks h ++ [text]) (modules h) (collecting h))).

(** The chunk on top of the stack is popped and run: it leaves no
    result, or the message of its failure. *)
Definition pcall (nargs nresults : Z) (i : interp Heap) : Z * interp Heap :=
  let '(s, h) := i in
  match last s with
  | Some (TFunction f) =>
      match chunks h !! Nat.pred (Pos.to_nat f) with
      | Some text =>
          if String.prefix "error" text
          then (LUA_ERRRUN, (removelast s ++ [TString ("failed: " +:+ text)], h))
          else (0%Z, (removelast s, h))
      | None => (LUA_ERRRUN, (removelast s ++ [TString "no such chunk"], h))
      end
  | _ => (LUA_ERRRUN, (removelast s ++ [TString "attempt to call a non-function"], h))
  end.

Definition requiref (modname : string) (openf : lua_CFunction) (glb : Z)
    (i : interp Heap) : unprotected Heap :=
  let '(s, h) := i in
  match openf with
  | c_function "broken" => raises (s ++ [TString ("cannot open " +:+ modname)], h)
  | _ => returns (s ++ [TTable 2], mkHeap (chunks h) (modules h ++ [modname]) (collecting h))
  end.

Definition gc_control (what data : Z) (h : Heap) : Z * Heap :=
  if (what =? LUA_GCSTOP)%Z then (0%Z, mkHeap (chunks h) (modules h) false)
  else if (what =? LUA_GCRESTART)%Z then (0%Z, mkHeap (chunks h) (modules h) true)
  else if (what =? LUA_GCISRUNNING)%Z then ((if collecting h then 1 else 0)%Z, h)
  else if (what =? LUA_GCCOUNT)%Z then (Z.of_nat (length (chunks h)), h)
  else (0%Z, h).

(** The engine, for a given value of [LUA_VERSION_NUM]. *)
Definition engine (version : Z) : LuaEngine Heap := {|
  LUA_VERSION_NUM := version;
  eng_newstate := mkHeap [] [] true;
  eng_openlibs := fun i => (fst i, mkHeap (chunks (snd i)) (modules (snd i) ++ ["_G"; "string"]) (collecting (snd i)));
  eng_requiref := requiref;
  eng_loadfile := fun filename i => compile filename i;
  eng_loadstring := compile;
  eng_setupvalue := fun funcindex n i => (removelast (fst i), snd i);
  eng_setfenv := fun index i => (removelast (fst i), snd i);
  eng_pcall := pcall;
  eng_gc := gc_control;
  eng_reg_functor_destructor := fun i => i;
  eng_globals := fun _ => 1%positive;
  eng_number_to_string := fun _ => "0"
|}.

(** The world before any VM exists. *)
Definition nothing : World Heap := mkWorld ∅ ∅ "" [].

(** A world with one VM, as [State()] leaves it, and the handle. *)
Definition booted : World Heap :=
  mkWorld
    {[ 1%positive := mkVM [] (Some addr_default_panic)
                       (mkHeap [] ["_G"; "string"] true) ]}
    {[ 1%positive := addr_stderror_out ]} "" [].
Definition owner : State := mkState None 1%positive true.

(** A world with one VM made by someone else: a value on its stack, no
    panic function, no handler. *)
Definition foreign : World Heap :=
  mkWorld {[ 1%positive := mkVM [TNumber 7] None (mkHeap [] [] true) ]} ∅ "" [].
Definition guest : State := mkState None 1%positive false.

(** What is observed of a call that returned: its result, the depth of
    the stack of VM 1, the error stream and the calls on record. *)
Definition summary {A} (o : Outcome Heap A)
  : option (A * option Z * string * list Event) :=
  match o with
  | Done a w =>
      Some (a, (fun v => Z.of_nat (length (stack v))) <$> vms w !! 1%positive,
            cerr w, calls w)
  | _ => None
  end.

(** Three libraries; the registrar of the second raises. *)
Definition three_libs : LoadLibs :=
  [("a", c_function "open_a"); ("b", c_function "broken"); ("c", c_function "open_c")].

End Mini.

(** The calls are run by the lemmas of Part III, not by unfolding. *)
Arguments lua_gettop : simpl never.
Arguments lua_settop : simpl never.
Arguments lua_atpanic : simpl never.
Arguments lua_close : simpl never.
Arguments luaL_openlibs : simpl never.
Arguments luaL_requiref : simpl never.
Arguments luaL_loadfile : simpl never.
Arguments luaL_loadstring : simpl never.
Arguments lua_pcall_wrap : simpl never.
Arguments lua_setupvalue : simpl never.
Arguments lua_setfenv : simpl never.
Arguments lua_gc : simpl never.
Arguments reg_functor_destructor : simpl never.
Arguments push_GlobalTable : simpl never.
Arguments LuaTable_push : simpl never.
Arguments getHandler : simpl never.
Arguments registerHandler : simpl never.
Arguments handle : simpl never.
Arguments on_vm : simpl never.
Arguments settop : simpl never.

(* ===================================================================== *)
(** * Part III: how the calls execute                                     *)
(* ===================================================================== *)

(** Every operation of a handle works on one VM. A world in which [L] is
    live can be written with that VM in front, [<[L:=v]> V]; the lemmas
    below give the outcome of each call on a world of this form, which is
    again of this form. *)

Section Execution.
Context {H : Type} {E : LuaEngine H}.
Implicit Types (L : lua_State) (v : VM H) (V : gmap lua_State (VM H))
  (R : gmap lua_State function_type) (c : string) (cs : list Event).

Lemma live_front L (w : World H) :
  live L w ->
  exists v V, w = mkWorld (<[L:=v]> V) (handlers w) (cerr w) (calls w).
Proof.
  intros [v Hv]. exists v, (vms w).
  rewrite insert_id by done. by destruct w.
Qed.

Lemma exec_on_vm {A} L (f : VM H -> A * VM H) v V R c cs :
  on_vm L f (mkWorld (<[L:=v]> V) R c cs)
  = Done (fst (f v)) (mkWorld (<[L:=snd (f v)]> V) R c cs).
Proof.
  unfold on_vm, set_vms; cbn. rewrite lookup_insert_eq.
  destruct (f v) as [a v']; cbn. by rewrite insert_insert_eq.
Qed.

Lemma exec_on_interp {A} L (f : interp H -> A * interp H) v V R c cs :
  on_interp L f (mkWorld (<[L:=v]> V) R c cs)
  = Done (fst (f (stack v, heap v)))
      (mkWorld (<[L:=mkVM (fst (snd (f (stack v, heap v)))) (panicf v)
                        (snd (snd (f (stack v, heap v))))]> V) R c cs).
Proof.
  unfold on_interp. rewrite exec_on_vm.
  by destruct (f (stack v, heap v)) as [a [s h]].
Qed.

Lemma exec_log e V R c cs :
  log e (mkWorld V R c cs) = Done tt (mkWorld V R c (cs ++ [e])).
Proof. reflexivity. Qed.

Lemma exec_gettop L v V R c cs :
  lua_gettop L (mkWorld (<[L:=v]> V) R c cs)
  = Done (Z.of_nat (length (stack v))) (mkWorld (<[L:=v]> V) R c cs).
Proof. unfold lua_gettop. by rewrite exec_on_vm. Qed.

Lemma exec_settop L index v V R c cs :
  lua_settop L index (mkWorld (<[L:=v]> V) R c cs)
  = Done tt (mkWorld (<[L:=mkVM (settop index (stack v)) (panicf v) (heap v)]> V)
               R c (cs ++ [call_lua_settop L index])).
Proof. unfold lua_settop, bind. by rewrite exec_log, exec_on_vm. Qed.

Lemma exec_push x L v V R c cs :
  push x L (mkWorld (<[L:=v]> V) R c cs)
  = Done tt (mkWorld (<[L:=mkVM (stack v ++ [x]) (panicf v) (heap v)]> V) R c cs).
Proof. unfold push. by rewrite exec_on_vm. Qed.

Lemma exec_tostring_top L v V R c cs :
  lua_tostring_top L (mkWorld (<[L:=v]> V) R c cs)
  = Done (last (stack v) ≫= tostring) (mkWorld (<[L:=v]> V) R c cs).
Proof. unfold lua_tostring_top. by rewrite exec_on_vm. Qed.

Lemma exec_atpanic L f v V R c cs :
  lua_atpanic L f (mkWorld (<[L:=v]> V) R c cs)
  = Done (panicf v)
      (mkWorld (<[L:=mkVM (stack v) (Some f) (heap v)]> V) R c
         (cs ++ [call_lua_atpanic L f])).
Proof. unfold lua_atpanic, bind. by rewrite exec_log, exec_on_vm. Qed.

Lemma exec_close L v V R c cs :
  lua_close L (mkWorld (<[L:=v]> V) R c cs)
  = Done tt (mkWorld (delete L V) R c (cs ++ [call_lua_close L])).
Proof.
  unfold lua_close, bind. rewrite exec_log. unfold set_vms; cbn.
  by rewrite lookup_insert_eq, delete_insert_eq.
Qed.

Lemma exec_openlibs L v V R c cs :
  luaL_openlibs L (mkWorld (<[L:=v]> V) R c cs)
  = Done tt
      (mkWorld (<[L:=mkVM (fst (eng_openlibs (stack v, heap v))) (panicf v)
                        (snd (eng_openlibs (stack v, heap v)))]> V)
         R c (cs ++ [call_luaL_openlibs L])).
Proof. unfold luaL_openlibs, bind. by rewrite exec_log, exec_on_interp. Qed.

Lemma exec_requiref L modname openf glb v V R c cs :
  luaL_requiref L modname openf glb (mkWorld (<[L:=v]> V) R c cs)
  = match eng_requiref modname openf glb (stack v, heap v) with
    | returns i =>
        Done tt (mkWorld (<[L:=mkVM (fst i) (panicf v) (snd i)]> V) R c
                   (cs ++ [call_luaL_requiref L modname openf glb]))
    | raises i =>
        Thrown (mkWorld (<[L:=mkVM (fst i) (panicf v) (snd i)]> V) R c
                  (cs ++ [call_luaL_requiref L modname openf glb]))
    end.
Proof.
  unfold luaL_requiref, bind. rewrite exec_log. unfold set_vms; cbn.
  rewrite lookup_insert_eq.
  destruct (eng_requiref _ _ _ _) as [[s h]|[s h]]; cbn;
    by rewrite insert_insert_eq.
Qed.

Lemma exec_loadfile L filename v V R c cs :
  luaL_loadfile L filename (mkWorld (<[L:=v]> V) R c cs)
  = let r := eng_loadfile filename (stack v, heap v) in
    Done (fst r)
      (mkWorld (<[L:=mkVM (fst (snd r)) (panicf v) (snd (snd r))]> V) R c
         (cs ++ [call_luaL_loadfile L filename (fst r)])).
Proof. unfold luaL_loadfile, bind. by rewrite exec_on_interp. Qed.

Lemma exec_loadstring L s v V R c cs :
  luaL_loadstring L s (mkWorld (<[L:=v]> V) R c cs)
  = let r := eng_loadstring s (stack v, heap v) in
    Done (fst r)
      (mkWorld (<[L:=mkVM (fst (snd r)) (panicf v) (snd (snd r))]> V) R c
         (cs ++ [call_luaL_loadstring L s (fst r)])).
Proof. unfold luaL_loadstring, bind. by rewrite exec_on_interp. Qed.

Lemma exec_pcall L nargs nresults v V R c cs :
  lua_pcall_wrap L nargs nresults (mkWorld (<[L:=v]> V) R c cs)
  = let r := eng_pcall nargs nresults (stack v, heap v) in
    Done (fst r)
      (mkWorld (<[L:=mkVM (fst (snd r)) (panicf v) (snd (snd r))]> V) R c
         (cs ++ [call_lua_pcall_wrap L nargs nresults (fst r)])).
Proof. unfold lua_pcall_wrap, bind. by rewrite exec_on_interp. Qed.

Lemma exec_setupvalue L funcindex n v V R c cs :
  lua_setupvalue L funcindex n (mkWorld (<[L:=v]> V) R c cs)
  = let i := eng_setupvalue funcindex n (stack v, heap v) in
    Done tt (mkWorld (<[L:=mkVM (fst i) (panicf v) (snd i)]> V) R c
               (cs ++ [call_lua_setupvalue L funcindex n])).
Proof. unfold lua_setupvalue, bind. by rewrite exec_log, exec_on_interp. Qed.

Lemma exec_setfenv L index v V R c cs :
  lua_setfenv L index (mkWorld (<[L:=v]> V) R c cs)
  = let i := eng_setfenv index (stack v, heap v) in
    Done tt (mkWorld (<[L:=mkVM (fst i) (panicf v) (snd i)]> V) R c
               (cs ++ [call_lua_setfenv L index])).
Proof. unfold lua_setfenv, bind. by rewrite exec_log, exec_on_interp. Qed.

Lemma exec_gc L what data v V R c cs :
  lua_gc L what data (mkWorld (<[L:=v]> V) R c cs)
  = let r := eng_gc what data (heap v) in
    Done (fst r)
      (mkWorld (<[L:=mkVM (stack v) (panicf v) (snd r)]> V) R c
         (cs ++ [call_lua_gc L what data (fst r)])).
Proof.
  unfold lua_gc, bind. rewrite exec_on_vm.
  by destruct (eng_gc what data (heap v)).
Qed.

Lemma exec_reg_functor_destructor L v V R c cs :
  reg_functor_destructor L (mkWorld (<[L:=v]> V) R c cs)
  = let i := eng_reg_functor_destructor (stack v, heap v) in
    Done tt (mkWorld (<[L:=mkVM (fst i) (panicf v) (snd i)]> V) R c
               (cs ++ [call_reg_functor_destructor L])).
Proof. unfold reg_functor_destructor, bind. by rewrite exec_log, exec_on_interp. Qed.

Lemma exec_push_GlobalTable L v V R c cs :
  push_GlobalTable L (mkWorld (<[L:=v]> V) R c cs)
  = Done tt
      (mkWorld (<[L:=mkVM (stack v ++ [TTable (eng_globals (heap v))])
                        (panicf v) (heap v)]> V) R c
         (cs ++ [call_push_GlobalTable L])).
Proof. unfold push_GlobalTable, bind. by rewrite exec_log, exec_on_vm. Qed.

Lemma exec_LuaTable_push L env v V R c cs :
  LuaTable_push L env (mkWorld (<[L:=v]> V) R c cs)
  = Done tt
      (mkWorld (<[L:=mkVM (stack v ++ [match env with
                                        | nilref => TNil
                                        | table_ref t => TTable t
                                        end]) (panicf v) (heap v)]> V) R c
         (cs ++ [call_LuaTable_push L env])).
Proof.
  unfold LuaTable_push, bind. rewrite exec_log.
  destruct env; by rewrite exec_push.
Qed.

Lemma exec_getHandler L V R c cs :
  getHandler L (mkWorld V R c cs) = Done (R !! L) (mkWorld V R c cs).
Proof. reflexivity. Qed.

Lemma exec_registerHandler L f V R c cs :
  registerHandler L f (mkWorld V R c cs)
  = Done tt (mkWorld V (<[L:=f]> R) c (cs ++ [call_registerHandler L f])).
Proof. reflexivity. Qed.

Lemma exec_handle status L v V R c cs :
  handle status L (mkWorld (<[L:=v]> V) R c cs)
  = Done tt
      (mkWorld (<[L:=mkVM (settop (-2) (stack v)) (panicf v) (heap v)]> V) R
         (handler_output R L (message_on_top v) c)
         (cs ++ call_handle status L
             :: handler_calls R L status (message_on_top v)
             ++ [call_lua_settop L (-2)])).
Proof.
  unfold handle, bind. rewrite exec_log, exec_tostring_top, exec_getHandler.
  unfold handler_calls, handler_output, message_on_top.
  destruct (R !! L) as [[|k]|]; unfold call_function, bind, ret;
    rewrite ?exec_log; unfold stderror_out, set_cerr; cbn;
    rewrite exec_settop, <- ?app_assoc; reflexivity.
Qed.

Lemma length_settop (n : nat) (s : list TValue) :
  length (settop (Z.of_nat n) s) = n.
Proof.
  unfold settop. rewrite (proj2 (Z.leb_le 0 (Z.of_nat n))) by lia.
  rewrite Nat2Z.id, length_app, length_take, length_replicate. lia.
Qed.

End Execution.

(** One step of a run on a world written with the VM in front. *)
Ltac exec_step :=
  first
    [ rewrite exec_gettop | rewrite exec_settop | rewrite exec_handle
    | rewrite exec_loadfile | rewrite exec_loadstring | rewrite exec_pcall
    | rewrite exec_LuaTable_push | rewrite exec_setupvalue | rewrite exec_setfenv
    | rewrite exec_getHandler | rewrite exec_registerHandler
    | rewrite exec_reg_functor_destructor | rewrite exec_openlibs
    | rewrite exec_atpanic | rewrite exec_close | rewrite exec_gc
    | rewrite exec_push_GlobalTable | rewrite exec_on_vm ].

Ltac exec := repeat (unfold bind, ret; cbn; try exec_step).

(** ** Runs on the small engine *)

Example State_default_run :
  Mini.summary (State_default (E:=Mini.engine 503) Mini.nothing)
  = Some (Mini.owner, Some 0%Z, "",
          [call_luaL_newstate 1%positive;
           call_lua_atpanic 1%positive addr_default_panic;
           call_registerHandler 1%positive addr_stderror_out;
           call_lua_settop 1%positive 0;
           call_reg_functor_destructor 1%positive;
           call_luaL_openlibs 1%positive;
           call_lua_settop 1%positive 0]).
Proof. vm_compute. reflexivity. Qed.

Example dostring_return_run :
  Mini.summary (dostring (E:=Mini.engine 503) Mini.guest "return 1+1" nilref
                  Mini.foreign)
  = Some (true, Some 1%Z, "",
          [call_luaL_loadstring 1%positive "return 1+1" 0;
           call_lua_pcall_wrap 1%positive 0 (-1) 0;
           call_lua_settop 1%positive 1]).
Proof. vm_compute. reflexivity. Qed.

Example dostring_syntax_error_run :
  Mini.summary (dostring (E:=Mini.engine 501) Mini.owner "!x" (table_ref 7)
                  Mini.booted)
  = Some (false, Some 0%Z, "syntax error near !x" +:+ newline,
          [call_luaL_loadstring 1%positive "!x" 3;
           call_handle 3 1%positive;
           call_handler addr_stderror_out 3 "syntax error near !x";
           call_lua_settop 1%positive (-2);
           call_lua_settop 1%positive 0]).
Proof. vm_compute. reflexivity. Qed.

(** Handler 1 then handler 2 registered for the same VM: the next
    failure goes to handler 2 alone. *)
Example second_handler_run :
  Mini.summary
    ((setErrorHandler Mini.owner (user_function 1) >>
      setErrorHandler Mini.owner (user_function 2) >>
      dostring (E:=Mini.engine 503) Mini.owner "error('boom')" nilref)
       Mini.booted)
  = Some (false, Some 0%Z, "",
          [call_registerHandler 1%positive (user_function 1);
           call_lua_settop 1%positive 0;
           call_registerHandler 1%positive (user_function 2);
           call_lua_settop 1%positive 0;
           call_luaL_loadstring 1%positive "error('boom')" 0;
           call_lua_pcall_wrap 1%positive 0 (-1) 2;
           call_handle 2 1%positive;
           call_handler (user_function 2) 2 "failed: error('boom')";
           call_lua_settop 1%positive (-2);
           call_lua_settop 1%positive 0]).
Proof. vm_compute. reflexivity. Qed.

Example index_run :
  Mini.summary (index (E:=Mini.engine 503) Mini.guest "x" Mini.foreign)
  = Some (mkTableKeyReference 1%positive 2 "x" 1, Some 2%Z, "",
          [call_push_GlobalTable 1%positive]).
Proof. vm_compute. reflexivity. Qed.

Example c_str_stops_at_NUL :
  c_str ("ab" +:+ String Ascii.zero "cd") = "ab".
Proof. reflexivity. Qed.

(* ===================================================================== *)
(** * Part IV: the operations of a handle                                 *)
(* ===================================================================== *)

Section Scripts.
Context {H : Type} {E : LuaEngine H}.
Implicit Types (L : lua_State) (v : VM H) (V : gmap lua_State (VM H))
  (R : gmap lua_State function_type) (c : string) (cs : list Event).

Lemma calls_since_app V R c cs V' R' c' new :
  calls_since (mkWorld V R c cs) (mkWorld (H:=H) V' R' c' (cs ++ new)) = new.
Proof. unfold calls_since; cbn. by rewrite drop_app_length. Qed.

Lemma run_shape_eq L src env l l' b :
  run_shape L src env l b -> l' = l -> run_shape L src env l' b.
Proof. by intros ? ->. Qed.

Local Ltac shape_eq :=
  unfold env_calls, register_ENV_call;
  repeat match goal with
         | Hver : (502 <=? LUA_VERSION_NUM)%Z = _ |- _ => rewrite Hver
         end;
  reflexivity.

(** The whole outcome of a script run. *)
Lemma run_script_outcome this src env v V R c cs :
  exists b v' c' new,
    run_script this src env (mkWorld (<[state_ this:=v]> V) R c cs)
    = Done b (mkWorld (<[state_ this:=v']> V) R c' (cs ++ new))
    /\ length (stack v') = length (stack v)
    /\ panicf v' = panicf v
    /\ run_shape (state_ this) src env (api_calls new) b
    /\ (b = true <-> statuses new = [0; 0]%Z)
    /\ (isNilref env = true -> Forall (fun e => env_call e = false) new)
    /\ (head (statuses new) = Some 0%Z ->
        exists status rest,
          api_calls new
          = load_call (state_ this) src 0 :: env_calls (state_ this) env
            ++ call_lua_pcall_wrap (state_ this) 0 LUA_MULTRET status :: rest).
Proof.
  destruct this as [a L cr]; cbn [state_].
  destruct src as [file|str];
    unfold run_script, dofile, dostring, ScopedSavedStack; exec;
    [ destruct (eng_loadfile file (stack v, heap v)) as [st [s1 h1]]
    | destruct (eng_loadstring str (stack v, heap v)) as [st [s1 h1]] ];
    cbn; (destruct (Z.eqb_spec st 0) as [->|Hst]; cbn; exec;
    [ destruct env as [|t]; cbn; exec;
      [ | destruct (502 <=? LUA_VERSION_NUM)%Z eqn:Hver; exec ];
      match goal with
      | |- context [eng_pcall ?x ?y ?i] =>
          destruct (eng_pcall x y i) as [st2 [s2 h2]]; cbn;
          destruct (Z.eqb_spec st2 0) as [->|Hst2]; cbn; exec
      end
    | ]);
    rewrite <- ?app_assoc; cbn [app];
    (eexists _, _, _, _; split; [reflexivity|]);
    cbn [stack panicf];
    (split; [apply length_settop|]); (split; [reflexivity|]);
    unfold handler_calls; destruct (R !! L); cbn;
    (split;
     [ first
         [ eapply run_shape_eq; [by apply compile_failed | shape_eq]
         | eapply run_shape_eq; [by apply call_failed | shape_eq]
         | eapply run_shape_eq; [apply run_succeeded | shape_eq] ]
     | split;
       [ split; [intros [=] | intros [=]]; congruence
       | split;
         [ intros [=]; repeat constructor
         | intros [=]; try congruence; eexists _, _; shape_eq ] ] ]).
Qed.

(** The run as the library's answers determine it: the result, the
    error stream and the calls. *)
Lemma run_script_exact this src env v V R c cs :
  exists v' new,
    run_script this src env (mkWorld (<[state_ this:=v]> V) R c cs)
    = Done (fst (deciding_step src env (stack v, heap v)) =? 0)%Z
        (mkWorld (<[state_ this:=v']> V) R
           (if (fst (deciding_step src env (stack v, heap v)) =? 0)%Z then c
            else handler_output R (state_ this)
                   (message_of (snd (deciding_step src env (stack v, heap v)))) c)
           (cs ++ new))
    /\ api_calls new
       = load_call (state_ this) src (fst (compile_step src (stack v, heap v)))
         :: (if (fst (compile_step src (stack v, heap v)) =? 0)%Z
             then binding_calls (state_ this) env
                  ++ call_lua_pcall_wrap (state_ this) 0 LUA_MULTRET
                       (fst (call_step src env (stack v, heap v)))
                  :: (if (fst (call_step src env (stack v, heap v)) =? 0)%Z
                      then []
                      else [call_handle (fst (call_step src env (stack v, heap v)))
                              (state_ this)])
             else [call_handle (fst (compile_step src (stack v, heap v)))
                     (state_ this)])
    /\ List.filter env_call new
       = (if (fst (compile_step src (stack v, heap v)) =? 0)%Z
          then binding_calls (state_ this) env
          else [])
    /\ reports new
       = (if (fst (deciding_step src env (stack v, heap v)) =? 0)%Z then []
          else call_handle (fst (deciding_step src env (stack v, heap v)))
                 (state_ this)
               :: handler_calls R (state_ this)
                    (fst (deciding_step src env (stack v, heap v)))
                    (message_of (snd (deciding_step src env (stack v, heap v))))).
Proof.
  destruct this as [a L cr]; cbn [state_].
  unfold deciding_step, call_step, compile_step, bind_env, binding_calls,
    message_of.
  destruct src as [file|str];
    unfold run_script, dofile, dostring, ScopedSavedStack; exec;
    [ destruct (eng_loadfile file (stack v, heap v)) as [st [s1 h1]]
    | destruct (eng_loadstring str (stack v, heap v)) as [st [s1 h1]] ];
    cbn; (destruct (Z.eqb_spec st 0) as [->|Hst]; cbn; exec;
    [ destruct env as [|t]; cbn; exec;
      [ | destruct (502 <=? LUA_VERSION_NUM)%Z eqn:Hver; exec;
          [ destruct (eng_setupvalue (-2) 1 (s1 ++ [TTable t], h1)) as [sb hb]
          | destruct (eng_setfenv (-2) (s1 ++ [TTable t], h1)) as [sb hb] ];
          cbn ];
      match goal with
      | |- context [eng_pcall ?x ?y ?i] =>
          destruct (eng_pcall x y i) as [st2 [s2 h2]]; cbn;
          destruct (Z.eqb_spec st2 0) as [->|Hst2]; cbn; exec
      end
    | ]);
    repeat match goal with
           | Hne : ?x ≠ 0%Z |- _ => rewrite (proj2 (Z.eqb_neq x 0) Hne)
           end;
    rewrite <- ?app_assoc; cbn [app];
    (eexists _, _; split; [reflexivity|]);
    unfold handler_calls; destruct (R !! L); cbn; rewrite ?Hver;
    repeat split.
Qed.


(** C7. The environment of a run of [dofile] or [dostring] on a VM in
    state [v]. The calls that bind an environment are fixed by [env] and
    by the status the library gives the compile step. With the nil
    reference there is none, and the chunk is called on the state the
    compile step left. With a table, when that status is zero, there are
    exactly two, after the compile step and before the protected call:
    the table is pushed, then bound by [lua_setupvalue(L, -2, 1)] when
    [LUA_VERSION_NUM >= 502] and by [lua_setfenv(L, -2)] otherwise, a
    choice of the build and not of the call; the chunk is called on the
    state the binding left. When the compile step fails nothing is
    bound. *)
Theorem run_script_environment this src env (w : World H) v :
  vms w !! state_ this = Some v ->
  exists b w',
    run_script this src env w = Done b w'
    /\ List.filter env_call (calls_since w w')
       = (if (fst (compile_step src (stack v, heap v)) =? 0)%Z
          then match env with
               | nilref => []
               | table_ref t =>
                   [ call_LuaTable_push (state_ this) (table_ref t);
                     if (502 <=? LUA_VERSION_NUM)%Z
                     then call_lua_setupvalue (state_ this) (-2) 1
                     else call_lua_setfenv (state_ this) (-2) ]
               end
          else [])
    /\ api_calls (calls_since w w')
       = load_call (state_ this) src (fst (compile_step src (stack v, heap v)))
         :: (if (fst (compile_step src (stack v, heap v)) =? 0)%Z
             then binding_calls (state_ this) env
                  ++ call_lua_pcall_wrap (state_ this) 0 LUA_MULTRET
                       (fst (call_step src env (stack v, heap v)))
                  :: (if (fst (call_step src env (stack v, heap v)) =? 0)%Z
                      then []
                      else [call_handle (fst (call_step src env (stack v, heap v)))
                              (state_ this)])
             else [call_handle (fst (compile_step src (stack v, heap v)))
                     (state_ this)]).
Proof.
  intros Hv.
  destruct (live_front (state_ this) w (ex_intro _ v Hv)) as (v0 & V & Hw).
  assert (v0 = v) as ->.
  { rewrite Hw in Hv. cbn [vms] in Hv. rewrite lookup_insert_eq in Hv.
    congruence. }
  destruct (run_script_exact this src env v V (handlers w) (cerr w) (calls w))
    as (v' & new & Hrun & Hapi & Henv & _).
  eexists _, _. rewrite Hw at 1. split; [exact Hrun|].
  assert (Hnew : forall c',
             calls_since w
               (mkWorld (<[state_ this:=v']> V) (handlers w) c' (calls w ++ new))
             = new).
  { intros c'. unfold calls_since; cbn [calls]. by rewrite drop_app_length. }
  rewrite Hnew. split; [exact Henv|exact Hapi].
Qed.

End Scripts.


Lemma run_script_environment_witness :
  vms Mini.booted !! state_ Mini.owner
  = Some (mkVM [] (Some addr_default_panic)
            (Mini.mkHeap [] ["_G"; "string"] true))
  /\ exists b w',
    run_script (E:=Mini.engine 501) Mini.owner (from_file "main.lua") (table_ref 7)
      Mini.booted = Done b w'
    /\ List.filter env_call (calls_since Mini.booted w')
       = [ call_LuaTable_push 1%positive (table_ref 7);
           call_lua_setfenv 1%positive (-2) ]
    /\ api_calls (calls_since Mini.booted w')
       = [ call_luaL_loadfile 1%positive "main.lua" 0;
           call_LuaTable_push 1%positive (table_ref 7);
           call_lua_setfenv 1%positive (-2);
           call_lua_pcall_wrap 1%positive 0 LUA_MULTRET 0 ].
Proof.
  assert (Hv : vms Mini.booted !! state_ Mini.owner
               = Some (mkVM [] (Some addr_default_panic)
                         (Mini.mkHeap [] ["_G"; "string"] true)))
    by (vm_compute; reflexivity).
  split; [exact Hv|].
  exact (run_script_environment (E:=Mini.engine 501) Mini.owner
           (from_file "main.lua") (table_ref 7) Mini.booted _ Hv).
Defined.

Section Libraries.
Context {H : Type} {E : LuaEngine H}.
Implicit Types (L : lua_State) (v : VM H) (V : gmap lua_State (VM H))
  (R : gmap lua_State function_type) (c : string) (cs : list Event).

Lemma library_calls_app l1 l2 :
  library_calls (l1 ++ l2) = library_calls l1 ++ library_calls l2.
Proof. apply List.filter_app. Qed.

(** One entry: the registrar returns and the guard restores the top, or
    it raises and [openlib] is left with the call on record. *)
Lemma exec_openlib this lib v V R c cs :
  openlib this lib (mkWorld (<[state_ this:=v]> V) R c cs)
  = match eng_requiref (c_str (fst lib)) (snd lib) 1 (stack v, heap v) with
    | returns i =>
        Done tt
          (mkWorld
             (<[state_ this:=mkVM (settop (Z.of_nat (length (stack v))) (fst i))
                               (panicf v) (snd i)]> V) R c
             (cs ++ [requiref_call (state_ this) lib;
                     call_lua_settop (state_ this) (Z.of_nat (length (stack v)))]))
    | raises i =>
        Thrown
          (mkWorld (<[state_ this:=mkVM (fst i) (panicf v) (snd i)]> V) R c
             (cs ++ [requiref_call (state_ this) lib]))
    end.
Proof.
  unfold openlib, ScopedSavedStack, bind. rewrite exec_gettop, exec_requiref.
  destruct (eng_requiref _ _ _ _) as [i|i]; [|reflexivity].
  rewrite exec_settop. unfold ret. by rewrite <- app_assoc.
Qed.

Lemma exec_openlibs_cons this it rest v V R c cs :
  openlibs_list this (it :: rest) (mkWorld (<[state_ this:=v]> V) R c cs)
  = match eng_requiref (c_str (fst it)) (snd it) 1 (stack v, heap v) with
    | returns i =>
        openlibs_list this rest
          (mkWorld
             (<[state_ this:=mkVM (settop (Z.of_nat (length (stack v))) (fst i))
                               (panicf v) (snd i)]> V) R c
             (cs ++ [requiref_call (state_ this) it;
                     call_lua_settop (state_ this) (Z.of_nat (length (stack v)))]))
    | raises i =>
        Thrown
          (mkWorld (<[state_ this:=mkVM (fst i) (panicf v) (snd i)]> V) R c
             (cs ++ [requiref_call (state_ this) it]))
    end.
Proof.
  cbn [openlibs_list]. unfold bind. rewrite exec_openlib.
  by destruct (eng_requiref _ _ _ _).
Qed.

(** The loop: all entries in order, or the entries up to the first one
    whose registrar raises. *)
Lemma openlibs_list_outcome this libs V R c : forall v cs,
  (exists v' new,
      openlibs_list this libs (mkWorld (<[state_ this:=v]> V) R c cs)
      = Done tt (mkWorld (<[state_ this:=v']> V) R c (cs ++ new))
      /\ length (stack v') = length (stack v)
      /\ panicf v' = panicf v
      /\ library_calls new = map (requiref_call (state_ this)) libs)
  \/ (exists v' new pre lib post i i',
      openlibs_list this libs (mkWorld (<[state_ this:=v]> V) R c cs)
      = Thrown (mkWorld (<[state_ this:=v']> V) R c (cs ++ new))
      /\ panicf v' = panicf v
      /\ libs = pre ++ lib :: post
      /\ library_calls new = map (requiref_call (state_ this)) (pre ++ [lib])
      /\ eng_requiref (c_str (fst lib)) (snd lib) 1 i = raises i').
Proof.
  induction libs as [|it rest IH]; intros v cs.
  - left. exists v, []. cbn. unfold ret. by rewrite app_nil_r.
  - rewrite exec_openlibs_cons.
    destruct (eng_requiref _ _ _ _) as [i|i] eqn:Hreq.
    + set (v1 := mkVM _ _ _).
      destruct (IH v1 (cs ++ [requiref_call (state_ this) it;
                              call_lua_settop (state_ this)
                                (Z.of_nat (length (stack v)))]))
        as [(v' & new & -> & Hlen & Hpanic & Hcalls)
           |(v' & new & pre & lib & post & j & j' & -> & Hpanic & -> & Hcalls & Hraise)].
      * left.
        exists v', (requiref_call (state_ this) it
                    :: call_lua_settop (state_ this) (Z.of_nat (length (stack v)))
                    :: new).
        split; [by rewrite <- app_assoc|].
        split; [by rewrite Hlen; apply length_settop|].
        split; [done|]. cbn. by rewrite <- Hcalls.
      * right.
        exists v', (requiref_call (state_ this) it
                    :: call_lua_settop (state_ this) (Z.of_nat (length (stack v)))
                    :: new), (it :: pre), lib, post, j, j'.
        split; [by rewrite <- app_assoc|].
        split; [done|]. split; [done|]. split; [|done].
        cbn. by rewrite <- Hcalls.
    + right. eexists _, [_], [], it, rest, _, i.
      split; [reflexivity|]. by repeat split.
Qed.

(** The entries before a registrar that raises are loaded, the call of
    that registrar is made, and the loop is left there. *)
Lemma openlibs_list_raises this lib post V R c : forall pre v cs,
  raises_after this pre lib (mkWorld (<[state_ this:=v]> V) R c cs) ->
  exists v' new,
    openlibs_list this (pre ++ lib :: post)
      (mkWorld (<[state_ this:=v]> V) R c cs)
    = Thrown (mkWorld (<[state_ this:=v']> V) R c (cs ++ new))
    /\ library_calls new = map (requiref_call (state_ this)) (pre ++ [lib]).
Proof.
  induction pre as [|it pre IH]; intros v cs (w1 & v1 & i & Hrun & Hv & Hraise).
  - cbn in Hrun. injection Hrun as <-.
    cbn [vms] in Hv. rewrite lookup_insert_eq in Hv. injection Hv as <-.
    cbn [app]. rewrite exec_openlibs_cons, Hraise.
    by eexists _, [_].
  - cbn [app]. rewrite exec_openlibs_cons in Hrun |- *.
    destruct (eng_requiref _ _ _ _) as [j|j]; [|discriminate Hrun].
    edestruct IH as (v' & new & -> & Hcalls).
    { exists w1, v1, i. split; [exact Hrun|]. by split. }
    exists v', (requiref_call (state_ this) it
                :: call_lua_settop (state_ this) (Z.of_nat (length (stack v)))
                :: new).
    split; [by rewrite <- app_assoc|]. cbn. by rewrite <- Hcalls.
Qed.

(** When no registrar raises in the state the entries before it leave,
    the loop returns and every entry has been loaded. *)
Lemma openlibs_list_returns this V R c : forall libs v cs,
  (forall pre lib post,
      libs = pre ++ lib :: post ->
      ~ raises_after this pre lib (mkWorld (<[state_ this:=v]> V) R c cs)) ->
  exists v' new,
    openlibs_list this libs (mkWorld (<[state_ this:=v]> V) R c cs)
    = Done tt (mkWorld (<[state_ this:=v']> V) R c (cs ++ new))
    /\ library_calls new = map (requiref_call (state_ this)) libs.
Proof.
  induction libs as [|it rest IH]; intros v cs Hnone.
  - exists v, []. cbn. unfold ret. by rewrite app_nil_r.
  - rewrite exec_openlibs_cons.
    destruct (eng_requiref _ _ _ _) as [i|i] eqn:Hreq.
    + edestruct IH as (v' & new & -> & Hcalls).
      { intros pre lib post -> (w1 & v1 & j & Hrun & Hv & Hraise).
        apply (Hnone (it :: pre) lib post eq_refl).
        exists w1, v1, j. rewrite exec_openlibs_cons, Hreq.
        split; [exact Hrun|]. by split. }
      exists v', (requiref_call (state_ this) it
                  :: call_lua_settop (state_ this) (Z.of_nat (length (stack v)))
                  :: new).
      split; [by rewrite <- app_assoc|]. cbn. by rewrite <- Hcalls.
    + exfalso. apply (Hnone [] it rest eq_refl).
      eexists _, v, i. split; [reflexivity|].
      cbn [vms]. by rewrite lookup_insert_eq.
Qed.

(** C9, as the code has it. [openlibs(libs)] on a live VM calls
    [luaL_requiref] on the entries in list order, and an error of a
    registrar is not caught. When the entries before [lib] load and the
    registrar of [lib] then raises, the loop is left by that error: the
    entries up to and including [lib] have been attempted, in order, and
    the entries after it have not. When no registrar raises in the state
    the entries before it leave, the loop returns and every entry has
    been attempted, in order. *)
Theorem openlibs_list_order this libs (w : World H) :
  live (state_ this) w ->
  (forall pre lib post,
      libs = pre ++ lib :: post ->
      raises_after this pre lib w ->
      exists w',
        openlibs_list this libs w = Thrown w'
        /\ library_calls (calls_since w w')
           = map (requiref_call (state_ this)) (pre ++ [lib]))
  /\ ((forall pre lib post,
          libs = pre ++ lib :: post -> ~ raises_after this pre lib w) ->
      exists w',
        openlibs_list this libs w = Done tt w'
        /\ library_calls (calls_since w w')
           = map (requiref_call (state_ this)) libs).
Proof.
  intros Hlive. destruct (live_front _ _ Hlive) as (v & V & ->). split.
  - intros pre lib post -> Hraise.
    destruct (openlibs_list_raises this lib post V (handlers w) (cerr w)
                pre v (calls w) Hraise) as (v' & new & -> & Hcalls).
    eexists; split; [reflexivity|]. by rewrite calls_since_app.
  - intros Hnone.
    destruct (openlibs_list_returns this V (handlers w) (cerr w) libs v (calls w)
                Hnone) as (v' & new & -> & Hcalls).
    eexists; split; [reflexivity|]. by rewrite calls_since_app.
Qed.

End Libraries.

Lemma openlibs_list_order_witness :
  live (state_ Mini.owner) Mini.booted
  /\ Mini.three_libs
     = [("a", c_function "open_a")] ++ ("b", c_function "broken")
       :: [("c", c_function "open_c")]
  /\ raises_after (E:=Mini.engine 503) Mini.owner [("a", c_function "open_a")]
       ("b", c_function "broken") Mini.booted
  /\ (exists w',
      openlibs_list (E:=Mini.engine 503) Mini.owner Mini.three_libs Mini.booted
      = Thrown w'
      /\ library_calls (calls_since Mini.booted w')
         = [ call_luaL_requiref 1%positive "a" (c_function "open_a") 1;
             call_luaL_requiref 1%positive "b" (c_function "broken") 1 ])
  /\ (forall pre lib post,
         [("a", c_function "open_a"); ("c", c_function "open_c")]
         = pre ++ lib :: post ->
         ~ raises_after (E:=Mini.engine 503) Mini.owner pre lib Mini.booted)
  /\ exists w',
      openlibs_list (E:=Mini.engine 503) Mini.owner
        [("a", c_function "open_a"); ("c", c_function "open_c")] Mini.booted
      = Done tt w'
      /\ library_calls (calls_since Mini.booted w')
         = [ call_luaL_requiref 1%positive "a" (c_function "open_a") 1;
             call_luaL_requiref 1%positive "c" (c_function "open_c") 1 ].
Proof.
  assert (Hlive : live (state_ Mini.owner) Mini.booted)
    by (vm_compute; eauto).
  assert (Hnone : forall pre lib post,
             [("a", c_function "open_a"); ("c", c_function "open_c")]
             = pre ++ lib :: post ->
             ~ raises_after (E:=Mini.engine 503) Mini.owner pre lib Mini.booted).
  { intros pre lib post Heq (w1 & v1 & i & Hrun & Hv & Hraise).
    destruct pre as [|p1 [|p2 [|p3 pre]]]; inversion Heq; subst;
      vm_compute in Hrun; injection Hrun as <-;
      vm_compute in Hv; injection Hv as <-;
      vm_compute in Hraise; discriminate Hraise. }
  assert (Hsplit : Mini.three_libs
                   = [("a", c_function "open_a")] ++ ("b", c_function "broken")
                     :: [("c", c_function "open_c")])
    by reflexivity.
  assert (Hraise : raises_after (E:=Mini.engine 503) Mini.owner
                     [("a", c_function "open_a")] ("b", c_function "broken")
                     Mini.booted)
    by (eexists _, _, _; repeat split; vm_compute; reflexivity).
  split; [exact Hlive|]. split; [exact Hsplit|]. split; [exact Hraise|].
  split; [|split; [exact Hnone|]].
  - exact (proj1 (openlibs_list_order (E:=Mini.engine 503) Mini.owner
                    Mini.three_libs Mini.booted Hlive)
             [("a", c_function "open_a")] ("b", c_function "broken")
             [("c", c_function "open_c")] Hsplit Hraise).
  - exact (proj2 (openlibs_list_order (E:=Mini.engine 503) Mini.owner
                    [("a", c_function "open_a"); ("c", c_function "open_c")]
                    Mini.booted Hlive) Hnone).
Defined.

(** C9, as the claim states it, fails: the registrar of the second of
    three entries raises, and the third entry is never attempted. *)
Lemma openlibs_list_stops_at_failure :
  ~ attempts_all (E:=Mini.engine 503) Mini.owner Mini.three_libs Mini.booted.
Proof.
  intros (w' & Hfinal & Hcalls).
  assert (exists w1,
             openlibs_list (E:=Mini.engine 503) Mini.owner Mini.three_libs Mini.booted
             = Thrown w1
             /\ library_calls (calls_since Mini.booted w1)
                = [call_luaL_requiref 1%positive "a" (c_function "open_a") 1;
                   call_luaL_requiref 1%positive "b" (c_function "broken") 1])
    as (w1 & Hrun & Hlog).
  { eexists; split; vm_compute; reflexivity. }
  rewrite Hrun in Hfinal. cbn in Hfinal. injection Hfinal as <-.
  rewrite Hlog in Hcalls. vm_compute in Hcalls. discriminate.
Qed.

Section Depth.
Context {H : Type} {E : LuaEngine H}.
Implicit Types (L : lua_State) (v : VM H) (V : gmap lua_State (VM H))
  (R : gmap lua_State function_type) (c : string) (cs : list Event).

Lemma depth_front L v V R c cs :
  depth L (mkWorld (<[L:=v]> V) R c cs) = Some (Z.of_nat (length (stack v))).
Proof. unfold depth; cbn. by rewrite lookup_insert_eq. Qed.

Local Ltac returned :=
  unfold returns_at; eexists _, _, _, _, _;
  (split; [reflexivity|]);
  cbn [stack]; rewrite ?length_settop, ?length_app; cbn; lia.

Lemma script_returns this src env v V R c cs :
  returns_at (state_ this) V (length (stack v))
    (void (run_script this src env) (mkWorld (<[state_ this:=v]> V) R c cs)).
Proof.
  destruct (run_script_outcome this src env v V R c cs)
    as (b & v' & c' & new & Hrun & Hlen & _).
  unfold void, bind. rewrite Hrun. unfold ret.
  by eexists _, _, _, _, _.
Qed.

Lemma compiled_unit_returns L (load : M H Z) v V R c cs :
  (exists status v1 new,
      load (mkWorld (<[L:=v]> V) R c cs)
      = Done status (mkWorld (<[L:=v1]> V) R c (cs ++ new))) ->
  returns_at L V (length (stack v))
    (void (compiled_unit L load) (mkWorld (<[L:=v]> V) R c cs)).
Proof.
  intros (status & v1 & new & Hload).
  unfold void, compiled_unit, ScopedSavedStack.
  unfold bind at 1 2 3. rewrite exec_gettop.
  unfold bind at 1. rewrite Hload.
  destruct (negb (status =? 0)%Z); exec; returned.
Qed.

Lemma gc_returns this o v V R c cs :
  returns_at (state_ this) V (length (stack v))
    (run_gc (gc this) o (mkWorld (<[state_ this:=v]> V) R c cs)).
Proof.
  destruct this as [a L cr].
  destruct o; cbn [run_gc gc state_ gc_state_];
    unfold collect, step, step_size, restart, stop, enable, disable, count,
      steppause, setstepmul, if_declared, isrunning, isenabled, void;
    try destruct (502 <=? LUA_VERSION_NUM)%Z;
    exec; returned.
Qed.

(** What each public operation does to the depth of the stack. *)
Lemma run_outcome this op v V R c cs :
  returns_at (state_ this) V
    (length (stack v) + (if is_index op then 1 else 0))
    (run this op (mkWorld (<[state_ this:=v]> V) R c cs))
  \/ (loads_library op = true
      /\ exists w', run this op (mkWorld (<[state_ this:=v]> V) R c cs) = Thrown w').
Proof.
  destruct op; cbn [run is_index loads_library]; rewrite ?Nat.add_0_r.
  - left. unfold setErrorHandler, ScopedSavedStack. exec. returned.
  - left. unfold openlibs, ScopedSavedStack. exec. returned.
  - rewrite exec_openlib. destruct (eng_requiref _ _ _ _) as [i|i].
    + left. returned.
    + right. eauto.
  - destruct (openlibs_list_outcome this libs V R c v cs)
      as [(v' & new & -> & Hlen & _)
         |(v' & new & pre & lib & post & i & i' & -> & _)].
    + left. by eexists _, _, _, _, _.
    + right. eauto.
  - left. apply compiled_unit_returns. rewrite exec_loadfile. cbn. eauto.
  - left. apply compiled_unit_returns. rewrite exec_loadfile. cbn. eauto.
  - left. apply compiled_unit_returns. rewrite exec_loadstring. cbn. eauto.
  - left. apply compiled_unit_returns. rewrite exec_loadstring. cbn. eauto.
  - left. apply (script_returns this (from_file file)).
  - left. apply (script_returns this (from_file (c_str file))).
  - left. apply (script_returns this (from_string str)).
  - left. apply (script_returns this (from_string (c_str str))).
  - left. apply (script_returns this (from_string str)).
  - left. apply (script_returns this (from_string (c_str str))).
  - left. apply gc_returns.
  - left. apply (gc_returns this gc_collect).
  - left. unfold void, index. exec. returned.
Qed.

(** C1, as the code has it. On a live VM whose stack has depth [d]:
    setting the error handler, loading libraries, loading a script,
    running a script and controlling the collector return with the
    stack at depth [d] again, on the path where all went well, on a
    compile failure and on a runtime failure sent to the handler alike.
    Indexing the handle returns with the stack at depth [d + 1]: the
    global table stays on the stack, at index [d + 1], and the
    reference returned remembers [d] as the top to go back to. Only
    loading a library can fail to return, when a registrar raises. *)
Theorem operation_stack_depth this op (w : World H) :
  live (state_ this) w ->
  exists d,
    depth (state_ this) w = Some d
    /\ ((exists w',
           run this op w = Done tt w'
           /\ depth (state_ this) w'
              = Some (if is_index op then d + 1 else d)%Z)
        \/ (loads_library op = true /\ exists w', run this op w = Thrown w'))
    /\ (forall str, exists w',
           index this str w
           = Done (mkTableKeyReference (state_ this) (d + 1) str d) w').
Proof.
  intros Hlive. destruct (live_front _ _ Hlive) as (v & V & ->).
  exists (Z.of_nat (length (stack v))). rewrite depth_front.
  split; [reflexivity|]. split.
  - destruct (run_outcome this op v V (handlers w) (cerr w) (calls w))
      as [([] & v' & R' & c' & cs' & -> & Hlen)|Hthrown]; [left|by right].
    eexists; split; [reflexivity|]. rewrite depth_front, Hlen.
    f_equal. destruct (is_index op); lia.
  - intros str. unfold index. exec. eauto.
Qed.

End Depth.

Lemma operation_stack_depth_witness :
  live (state_ Mini.guest) Mini.foreign /\
  exists d,
    depth (state_ Mini.guest) Mini.foreign = Some d
    /\ ((exists w',
           run (E:=Mini.engine 503) Mini.guest
             (op_dostring "error('boom')" (table_ref 7)) Mini.foreign = Done tt w'
           /\ depth (state_ Mini.guest) w' = Some d)
        \/ (false = true
            /\ exists w',
                run (E:=Mini.engine 503) Mini.guest
                  (op_dostring "error('boom')" (table_ref 7)) Mini.foreign
                = Thrown w'))
    /\ (forall str, exists w',
           index (E:=Mini.engine 503) Mini.guest str Mini.foreign
           = Done (mkTableKeyReference (state_ Mini.guest) (d + 1) str d) w').
Proof.
  assert (Hlive : live (state_ Mini.guest) Mini.foreign)
    by (vm_compute; eauto).
  split; [exact Hlive|].
  exact (operation_stack_depth (E:=Mini.engine 503) Mini.guest
           (op_dostring "error('boom')" (table_ref 7)) Mini.foreign Hlive).
Defined.

(** C1, as the claim states it, fails for the indexing operator: on a
    VM with an empty stack, [state["x"]] returns with depth 1. *)
Lemma index_leaves_table_on_stack :
  ~ stack_neutral (E:=Mini.engine 503) Mini.owner (op_index "x") Mini.booted.
Proof.
  intros Hneutral.
  assert (exists w',
             run (E:=Mini.engine 503) Mini.owner (op_index "x") Mini.booted
             = Done tt w'
             /\ depth 1%positive Mini.booted = Some 0%Z
             /\ depth 1%positive w' = Some 1%Z)
    as (w' & Hrun & Hbefore & Hafter).
  { eexists; repeat split; vm_compute; reflexivity. }
  specialize (Hneutral _ Hrun). cbn [state_ Mini.owner] in Hneutral.
  rewrite Hbefore, Hafter in Hneutral. discriminate.
Qed.

Section Lifecycle.
Context {H : Type} {E : LuaEngine H}.
Implicit Types (L : lua_State) (v : VM H) (V : gmap lua_State (VM H))
  (R : gmap lua_State function_type) (c : string) (cs : list Event).

Lemma panic_of_front L v V R c cs :
  panic_of L (mkWorld (<[L:=v]> V) R c cs) = panicf v.
Proof. unfold panic_of; cbn. by rewrite lookup_insert_eq. Qed.

Lemma exec_luaL_newstate V R c cs :
  luaL_newstate (mkWorld V R c cs)
  = Done (fresh (dom V))
      (mkWorld (<[fresh (dom V):=mkVM [] (Some lauxlib_panic) eng_newstate]> V)
         R c (cs ++ [call_luaL_newstate (fresh (dom V))])).
Proof. reflexivity. Qed.

Lemma exec_lua_newstate ud V R c cs :
  lua_newstate ud (mkWorld V R c cs)
  = Done (fresh (dom V))
      (mkWorld (<[fresh (dom V):=mkVM [] None eng_newstate]> V)
         R c (cs ++ [call_lua_newstate ud (fresh (dom V))])).
Proof. reflexivity. Qed.

(** [init]: the registry gets the default handler for [L] unless [L]
    has one; the panic function is not touched. *)
Lemma init_outcome a L cr v V R c cs :
  exists v' new,
    init (mkState a L cr) (mkWorld (<[L:=v]> V) R c cs)
    = Done tt (mkWorld (<[L:=v']> V) (defaulted L R) c (cs ++ new))
    /\ panicf v' = panicf v.
Proof.
  unfold init, setErrorHandler, ScopedSavedStack, defaulted. exec.
  destruct (R !! L); exec; rewrite <- ?app_assoc; by eexists _, _.
Qed.

Lemma openlibs_outcome a L cr v V R c cs :
  exists v' new,
    openlibs (mkState a L cr) (mkWorld (<[L:=v]> V) R c cs)
    = Done tt (mkWorld (<[L:=v']> V) R c (cs ++ new))
    /\ panicf v' = panicf v.
Proof.
  unfold openlibs, ScopedSavedStack. exec. rewrite <- ?app_assoc.
  by eexists _, _.
Qed.

(** After the VM exists, the fresh constructors go the same way:
    panic trap, [init], libraries. [load] is [openlibs()] or
    [openlibs(libs)]; only the second can be left by an error. *)
Lemma fresh_setup_outcome (list : bool) a L (load : State -> M H unit) v V R c cs :
  (forall v1 R1 cs1,
      exists v' new,
        panicf v' = panicf v1
        /\ (load (mkState a L true) (mkWorld (<[L:=v1]> V) R1 c cs1)
            = Done tt (mkWorld (<[L:=v']> V) R1 c (cs1 ++ new))
            \/ list = true
               /\ load (mkState a L true) (mkWorld (<[L:=v1]> V) R1 c cs1)
                  = Thrown (mkWorld (<[L:=v']> V) R1 c (cs1 ++ new)))) ->
  exists v' new,
    panicf v' = Some addr_default_panic
    /\ ((lua_atpanic L addr_default_panic >>
         init (mkState a L true) >>
         load (mkState a L true) >>
         ret (mkState a L true)) (mkWorld (<[L:=v]> V) R c cs)
        = Done (mkState a L true)
            (mkWorld (<[L:=v']> V) (defaulted L R) c (cs ++ new))
        \/ list = true
           /\ (lua_atpanic L addr_default_panic >>
               init (mkState a L true) >>
               load (mkState a L true) >>
               ret (mkState a L true)) (mkWorld (<[L:=v]> V) R c cs)
              = Thrown (mkWorld (<[L:=v']> V) (defaulted L R) c (cs ++ new))).
Proof.
  intros Hload. unfold bind. rewrite exec_atpanic.
  destruct (init_outcome a L true (mkVM (stack v) (Some addr_default_panic) (heap v))
              V R c (cs ++ [call_lua_atpanic L addr_default_panic]))
    as (v2 & new2 & -> & Hp2).
  destruct (Hload v2 (defaulted L R)
              ((cs ++ [call_lua_atpanic L addr_default_panic]) ++ new2))
    as (v3 & new3 & Hp3 & [-> | [Hlist ->]]);
    exists v3, (call_lua_atpanic L addr_default_panic :: new2 ++ new3);
    (split; [by rewrite Hp3, Hp2|]); [left|right; split; [done|]];
    unfold ret; by rewrite <- !app_assoc.
Qed.

Lemma openlibs_load a L V c v1 R1 cs1 :
  exists v' new,
    panicf v' = panicf v1
    /\ (openlibs (mkState a L true) (mkWorld (<[L:=v1]> V) R1 c cs1)
        = Done tt (mkWorld (<[L:=v']> V) R1 c (cs1 ++ new))
        \/ false = true
           /\ openlibs (mkState a L true) (mkWorld (<[L:=v1]> V) R1 c cs1)
              = Thrown (mkWorld (<[L:=v']> V) R1 c (cs1 ++ new))).
Proof.
  destruct (openlibs_outcome a L true v1 V R1 c cs1) as (v' & new & Hrun & Hp).
  eauto 6.
Qed.

Lemma openlibs_list_load libs a L V c v1 R1 cs1 :
  exists v' new,
    panicf v' = panicf v1
    /\ (openlibs_list (mkState a L true) libs (mkWorld (<[L:=v1]> V) R1 c cs1)
        = Done tt (mkWorld (<[L:=v']> V) R1 c (cs1 ++ new))
        \/ true = true
           /\ openlibs_list (mkState a L true) libs
                (mkWorld (<[L:=v1]> V) R1 c cs1)
              = Thrown (mkWorld (<[L:=v']> V) R1 c (cs1 ++ new))).
Proof.
  destruct (openlibs_list_outcome (mkState a L true) libs V R1 c v1 cs1)
    as [(v' & new & Hrun & _ & Hp & _)
       |(v' & new & pre & lib & post & i & i' & Hrun & Hp & _)];
    cbn [state_] in Hrun; eauto 7.
Qed.

(** What a constructor leaves behind. *)
Lemma construct_outcome k (w : World H) :
  (fresh_mode k = false -> live (vm_of k w) w) ->
  exists w',
    final (construct k w) = Some w'
    /\ handlers w' = defaulted (vm_of k w) (handlers w)
    /\ cerr w' = cerr w
    /\ panic_of (vm_of k w) w'
       = (if fresh_mode k then Some addr_default_panic
          else panic_of (vm_of k w) w)
    /\ (construct k w
        = Done (mkState (allocator_of k) (vm_of k w) (fresh_mode k)) w'
        \/ (takes_libs k = true /\ construct k w = Thrown w')).
Proof.
  intros Hlive.
  destruct k as [|a|libs|libs a|lua];
    cbn [construct fresh_mode vm_of allocator_of takes_libs] in *.
  1-4: destruct w as [V R c cs]; cbn [vms handlers cerr calls].
  - destruct (fresh_setup_outcome false None (fresh (dom V)) openlibs
                (mkVM [] (Some lauxlib_panic) eng_newstate) V R c
                (cs ++ [call_luaL_newstate (fresh (dom V))])
                (openlibs_load None (fresh (dom V)) V c))
      as (v' & new & Hp & [Hrun | [[=] _]]).
    change (State_default (mkWorld V R c cs)) with
      ((lua_atpanic (fresh (dom V)) addr_default_panic >>
        init (mkState None (fresh (dom V)) true) >>
        openlibs (mkState None (fresh (dom V)) true) >>
        ret (mkState None (fresh (dom V)) true))
         (mkWorld (<[fresh (dom V):=mkVM [] (Some lauxlib_panic) eng_newstate]> V)
            R c (cs ++ [call_luaL_newstate (fresh (dom V))]))).
    rewrite Hrun. eexists; cbn [final handlers cerr].
    rewrite panic_of_front. by repeat split; eauto.
  - destruct (fresh_setup_outcome false (Some a) (fresh (dom V)) openlibs
                (mkVM [] None eng_newstate) V R c
                (cs ++ [call_lua_newstate a (fresh (dom V))])
                (openlibs_load (Some a) (fresh (dom V)) V c))
      as (v' & new & Hp & [Hrun | [[=] _]]).
    change (State_allocator a (mkWorld V R c cs)) with
      ((lua_atpanic (fresh (dom V)) addr_default_panic >>
        init (mkState (Some a) (fresh (dom V)) true) >>
        openlibs (mkState (Some a) (fresh (dom V)) true) >>
        ret (mkState (Some a) (fresh (dom V)) true))
         (mkWorld (<[fresh (dom V):=mkVM [] None eng_newstate]> V)
            R c (cs ++ [call_lua_newstate a (fresh (dom V))]))).
    rewrite Hrun. eexists; cbn [final handlers cerr].
    rewrite panic_of_front. by repeat split; eauto.
  - destruct (fresh_setup_outcome true None (fresh (dom V))
                (fun this => openlibs_list this libs)
                (mkVM [] (Some lauxlib_panic) eng_newstate) V R c
                (cs ++ [call_luaL_newstate (fresh (dom V))])
                (openlibs_list_load libs None (fresh (dom V)) V c))
      as (v' & new & Hp & Hrun).
    change (State_libs libs (mkWorld V R c cs)) with
      ((lua_atpanic (fresh (dom V)) addr_default_panic >>
        init (mkState None (fresh (dom V)) true) >>
        openlibs_list (mkState None (fresh (dom V)) true) libs >>
        ret (mkState None (fresh (dom V)) true))
         (mkWorld (<[fresh (dom V):=mkVM [] (Some lauxlib_panic) eng_newstate]> V)
            R c (cs ++ [call_luaL_newstate (fresh (dom V))]))).
    destruct Hrun as [Hrun | [_ Hrun]]; rewrite Hrun;
      eexists; cbn [final handlers cerr];
      rewrite panic_of_front; by repeat split; eauto.
  - destruct (fresh_setup_outcome true (Some a) (fresh (dom V))
                (fun this => openlibs_list this libs)
                (mkVM [] None eng_newstate) V R c
                (cs ++ [call_lua_newstate a (fresh (dom V))])
                (openlibs_list_load libs (Some a) (fresh (dom V)) V c))
      as (v' & new & Hp & Hrun).
    change (State_libs_allocator libs a (mkWorld V R c cs)) with
      ((lua_atpanic (fresh (dom V)) addr_default_panic >>
        init (mkState (Some a) (fresh (dom V)) true) >>
        openlibs_list (mkState (Some a) (fresh (dom V)) true) libs >>
        ret (mkState (Some a) (fresh (dom V)) true))
         (mkWorld (<[fresh (dom V):=mkVM [] None eng_newstate]> V)
            R c (cs ++ [call_lua_newstate a (fresh (dom V))]))).
    destruct Hrun as [Hrun | [_ Hrun]]; rewrite Hrun;
      eexists; cbn [final handlers cerr];
      rewrite panic_of_front; by repeat split; eauto.
  - destruct (live_front _ _ (Hlive eq_refl)) as (v & V & Hw).
    destruct (init_outcome None lua false v V (handlers w) (cerr w) (calls w))
      as (v' & new & Hinit & Hp).
    assert (Hrun : State_adopt lua w
                   = Done (mkState None lua false)
                       (mkWorld (<[lua:=v']> V) (defaulted lua (handlers w))
                          (cerr w) (calls w ++ new))).
    { unfold State_adopt, bind. rewrite Hw at 1. by rewrite Hinit. }
    rewrite Hrun. eexists; cbn [final handlers cerr].
    rewrite panic_of_front, Hp.
    assert (panic_of lua w = panicf v) as ->
      by (rewrite Hw; apply panic_of_front).
    by repeat split; eauto.
Qed.

(** C3, as the code has it. A constructor ends with a handle on its
    VM whose [created_] is true for the four fresh modes and false for
    adoption: adoption takes no ownership. In every mode the registry
    afterwards is the one before with [&stderror_out] installed for the
    VM unless it had a handler. The panic function is another matter:
    the fresh modes set it to [&default_panic] whatever it was, and
    adoption leaves it as it was, also when the VM has none. Only the
    two modes with a library list can be left by an error. *)
Theorem construction_ownership_and_traps k (w : World H) :
  (fresh_mode k = false -> live (vm_of k w) w) ->
  exists w',
    (construct k w
     = Done (mkState (allocator_of k) (vm_of k w) (fresh_mode k)) w'
     \/ (takes_libs k = true /\ construct k w = Thrown w'))
    /\ handlers w' = defaulted (vm_of k w) (handlers w)
    /\ panic_of (vm_of k w) w'
       = (if fresh_mode k then Some addr_default_panic
          else panic_of (vm_of k w) w).
Proof.
  intros Hlive.
  destruct (construct_outcome k w Hlive) as (w' & _ & Hh & _ & Hp & Hrun).
  by exists w'.
Qed.

(** C5. At the end of a construction, in any mode: when the VM had no
    handler, the registry is the one before with [&stderror_out] added
    for the VM; when it had one, the registry is unchanged. And
    [stderror_out] appends the message and a newline to the error
    stream, and nothing else. *)
Theorem construction_default_handler k (w : World H) :
  (fresh_mode k = false -> live (vm_of k w) w) ->
  exists w',
    final (construct k w) = Some w'
    /\ (handlers w !! vm_of k w = None ->
        handlers w' = <[vm_of k w:=addr_stderror_out]> (handlers w))
    /\ (forall f, handlers w !! vm_of k w = Some f -> handlers w' = handlers w)
    /\ (forall status message (w0 : World H),
          stderror_out status message w0
          = Done tt (mkWorld (vms w0) (handlers w0)
                       (cerr w0 +:+ message +:+ newline) (calls w0))).
Proof.
  intros Hlive.
  destruct (construct_outcome k w Hlive) as (w' & Hfinal & Hh & _).
  exists w'. split; [done|]. unfold defaulted in Hh.
  split; [|split].
  - intros Hnone. by rewrite Hnone in Hh.
  - intros f Hsome. by rewrite Hsome in Hh.
  - reflexivity.
Qed.

(** C4. The destructor returns. It calls [lua_close] exactly when
    [created_] is true, and then the VM is gone; when [created_] is
    false it changes nothing at all, so the adopted VM is as usable as
    before. *)
Theorem destructor_closes_owned_only this (w : World H) :
  (created_ this = true -> live (state_ this) w) ->
  exists w',
    State_destroy this w = Done tt w'
    /\ (In (call_lua_close (state_ this)) (calls_since w w')
        <-> created_ this = true)
    /\ (created_ this = true -> vms w' = delete (state_ this) (vms w))
    /\ (created_ this = false -> w' = w).
Proof.
  intros Hlive. unfold State_destroy.
  destruct (created_ this) eqn:Hcreated.
  - destruct (live_front _ _ (Hlive eq_refl)) as (v & V & Hw).
    assert (Hrun : lua_close (state_ this) w
                   = Done tt (mkWorld (delete (state_ this) V) (handlers w)
                                (cerr w)
                                (calls w ++ [call_lua_close (state_ this)]))).
    { rewrite Hw at 1. apply exec_close. }
    rewrite Hrun. eexists; split; [reflexivity|].
    unfold calls_since; cbn [calls vms]. rewrite drop_app_length.
    split; [|split].
    + split; [done|]. intros _. by left.
    + intros _. rewrite Hw; cbn [vms]. by rewrite delete_insert_eq.
    + done.
  - exists w. split; [reflexivity|].
    unfold calls_since. rewrite drop_all. by repeat split.
Qed.

End Lifecycle.

Lemma construction_ownership_and_traps_witness :
  (fresh_mode (ctor_adopt 1%positive) = false ->
   live (vm_of (ctor_adopt 1%positive) Mini.foreign) Mini.foreign) /\
  exists w',
    (construct (E:=Mini.engine 503) (ctor_adopt 1%positive) Mini.foreign
     = Done (mkState None 1%positive false) w'
     \/ (false = true
         /\ construct (E:=Mini.engine 503) (ctor_adopt 1%positive) Mini.foreign
            = Thrown w'))
    /\ handlers w' = defaulted 1%positive (handlers Mini.foreign)
    /\ panic_of 1%positive w' = panic_of 1%positive Mini.foreign.
Proof.
  assert (Hlive : fresh_mode (ctor_adopt 1%positive) = false ->
                  live (vm_of (ctor_adopt 1%positive) Mini.foreign) Mini.foreign)
    by (intros _; vm_compute; eauto).
  split; [exact Hlive|].
  exact (construction_ownership_and_traps (E:=Mini.engine 503)
           (ctor_adopt 1%positive) Mini.foreign Hlive).
Defined.

(** C3, as the claim states it, fails: a VM made with no panic function
    and then adopted still has none. *)
Lemma adoption_leaves_panic_function :
  ~ adoption_installs_panic_trap (E:=Mini.engine 503) 1%positive Mini.foreign.
Proof.
  intros Hclaim.
  assert (exists w',
             State_adopt (E:=Mini.engine 503) 1%positive Mini.foreign
             = Done Mini.guest w'
             /\ panic_of 1%positive Mini.foreign = None
             /\ panic_of 1%positive w' = None)
    as (w' & Hrun & Hbefore & Hafter).
  { eexists; repeat split; vm_compute; reflexivity. }
  specialize (Hclaim Hbefore _ _ Hrun). rewrite Hafter in Hclaim. discriminate.
Qed.

Lemma construction_default_handler_witness :
  (fresh_mode (ctor_libs Mini.three_libs) = false ->
   live (vm_of (ctor_libs Mini.three_libs) Mini.booted) Mini.booted) /\
  exists w',
    final (construct (E:=Mini.engine 503) (ctor_libs Mini.three_libs) Mini.booted)
    = Some w'
    /\ (handlers Mini.booted !! vm_of (ctor_libs Mini.three_libs) Mini.booted = None ->
        handlers w'
        = <[vm_of (ctor_libs Mini.three_libs) Mini.booted:=addr_stderror_out]>
            (handlers Mini.booted))
    /\ (forall f,
          handlers Mini.booted !! vm_of (ctor_libs Mini.three_libs) Mini.booted
          = Some f ->
          handlers w' = handlers Mini.booted)
    /\ (forall status message (w0 : World Mini.Heap),
          stderror_out status message w0
          = Done tt (mkWorld (vms w0) (handlers w0)
                       (cerr w0 +:+ message +:+ newline) (calls w0))).
Proof.
  assert (Hlive : fresh_mode (ctor_libs Mini.three_libs) = false ->
                  live (vm_of (ctor_libs Mini.three_libs) Mini.booted) Mini.booted)
    by (intros [=]).
  split; [exact Hlive|].
  exact (construction_default_handler (E:=Mini.engine 503)
           (ctor_libs Mini.three_libs) Mini.booted Hlive).
Defined.

Lemma destructor_closes_owned_only_witness :
  (created_ Mini.owner = true -> live (state_ Mini.owner) Mini.booted) /\
  exists w',
    State_destroy Mini.owner Mini.booted = Done tt w'
    /\ (In (call_lua_close (state_ Mini.owner)) (calls_since Mini.booted w')
        <-> created_ Mini.owner = true)
    /\ (created_ Mini.owner = true ->
        vms w' = delete (state_ Mini.owner) (vms Mini.booted))
    /\ (created_ Mini.owner = false -> w' = Mini.booted).
Proof.
  assert (Hlive : created_ Mini.owner = true -> live (state_ Mini.owner) Mini.booted)
    by (intros _; vm_compute; eauto).
  split; [exact Hlive|].
  exact (destructor_closes_owned_only Mini.owner Mini.booted Hlive).
Defined.

Section Collector.
Context {H : Type} {E : LuaEngine H}.

(** C8, as the code has it. [isenabled] (and [isrunning], the same
    member under another name) exists exactly on builds with
    [LUA_VERSION_NUM >= 502]; there it asks the VM with
    [LUA_GCISRUNNING] and answers whether the result is non-zero. On an
    older library the class has no query. In neither case does the
    wrapper keep a state of its own: a [GCType] is nothing but the VM
    pointer, and [enable] and [disable] only forward to [lua_gc]. *)
Theorem isenabled_only_from_502 :
  match isenabled with
  | Some query =>
      (502 <= LUA_VERSION_NUM)%Z
      /\ isrunning = Some query
      /\ forall g (w : World H),
           query g w
           = (do r <- lua_gc (gc_state_ g) LUA_GCISRUNNING 0 in
              ret (negb (r =? 0)%Z)) w
  | None => (LUA_VERSION_NUM < 502)%Z /\ isrunning = None
  end
  /\ (forall g : GCType, g = mkGCType (gc_state_ g))
  /\ (forall g (w : World H),
        enable g w = (lua_gc (gc_state_ g) LUA_GCRESTART 0 >> ret tt) w
        /\ disable g w = (lua_gc (gc_state_ g) LUA_GCSTOP 0 >> ret tt) w).
Proof.
  split; [|split].
  - unfold isrunning, isenabled.
    destruct (Z.leb_spec 502 LUA_VERSION_NUM); by repeat split.
  - by intros [L].
  - by intros g w.
Qed.

End Collector.

(** C8, as the claim states it, fails: built against Lua 5.1 the class
    has no [isenabled]. *)
Lemma isenabled_missing_on_501 :
  ~ provides_isenabled (E:=Mini.engine 501).
Proof. intros [query Hquery]. vm_compute in Hquery. discriminate. Qed.

Section Overloads.
Context {H : Type} {E : LuaEngine H}.

Lemma c_str_idemp s : c_str (c_str s) = c_str s.
Proof.
  induction s as [|ch s IH]; [done|]. cbn.
  destruct (Ascii.eqb ch Ascii.zero) eqn:Hch; [done|].
  cbn. by rewrite Hch, IH.
Qed.

(** C10. The overloads on [std::string] are the overloads on
    [const char*] applied to [c_str()]: same result and same effect in
    every world, for [dostring] and for [dofile]. For a text that is a
    C string already, going through [std::string] changes nothing. The
    call operators are [dostring] with the nil reference as
    environment. *)
Theorem string_overloads_delegate this (s : string) env :
  dostring_string this s env = dostring this (c_str s) env
  /\ dofile_string this s env = dofile this (c_str s) env
  /\ dostring_string this (c_str s) env = dostring this (c_str s) env
  /\ dofile_string this (c_str s) env = dofile this (c_str s) env
  /\ call_string this s = dostring_string this s nilref
  /\ call this s = dostring this s nilref.
Proof.
  unfold dostring_string, dofile_string, call_string, call.
  rewrite c_str_idemp. by repeat split.
Qed.

End Overloads.

(* ===================================================================== *)
(** * Part IV, continued: further properties of the handle                *)
(* ===================================================================== *)

Section Texts.
Context {H : Type} {E : LuaEngine H}.

Lemma c_str_with_tail s t : c_str (with_tail s t) = c_str s.
Proof.
  unfold with_tail. induction s as [|ch s IH]; cbn [c_str].
  - reflexivity.
  - destruct (Ascii.eqb ch Ascii.zero) eqn:Hch.
    + reflexivity.
    + change (c_str (String ch (c_str s) +:+ String Ascii.zero t))
        with (if Ascii.eqb ch Ascii.zero then EmptyString
              else String ch (c_str (c_str s +:+ String Ascii.zero t))).
      by rewrite Hch, IH.
Qed.

(** X1. [openlibs(libs)] over a list put together from two lists is
    [openlibs] over the first followed by [openlibs] over the second, in
    every world: same calls, same outcome, and when a registrar of the
    first list raises, the second list is not started. *)
Theorem openlibs_list_app this (libs1 libs2 : LoadLibs) (w : World H) :
  openlibs_list this (libs1 ++ libs2) w
  = (openlibs_list this libs1 >> openlibs_list this libs2) w.
Proof.
  revert w. induction libs1 as [|it rest IH]; intros w.
  - reflexivity.
  - cbn [app openlibs_list]. unfold bind at 1 2 3.
    destruct (openlib this it w) as [[] w1|w1|]; [|reflexivity..].
    rewrite IH. reflexivity.
Qed.

(** X2. The overloads on [std::string] pass [c_str()] on, and a C
    function reads that up to the first NUL: a script text, a file path
    or a library name with a NUL inside is cut there. Whatever follows
    the NUL has no effect on [dostring], [dofile], the call operator or
    [openlib]. *)
Theorem text_cut_at_NUL this (s t : string) env (f : lua_CFunction) :
  dostring_string this (with_tail s t) env = dostring this (c_str s) env
  /\ dofile_string this (with_tail s t) env = dofile this (c_str s) env
  /\ call_string this (with_tail s t) = call this (c_str s)
  /\ openlib this (with_tail s t, f) = openlib this (c_str s, f).
Proof.
  unfold dostring_string, dofile_string, call_string, call, dostring_string,
    openlib; cbn [fst snd].
  rewrite c_str_with_tail, c_str_idemp. by repeat split.
Qed.

End Texts.

Section Reporting.
Context {H : Type} {E : LuaEngine H}.
Implicit Types (L : lua_State) (v : VM H) (V : gmap lua_State (VM H))
  (R : gmap lua_State function_type) (c : string) (cs : list Event).

(** X3. What a run of [dofile] or [dostring] reports, on a VM in state
    [v]. The step that decides is the compile step when its status is
    not zero and the protected call otherwise. The run returns true
    exactly when the status of that step is zero, and then neither
    [handle] nor a handler is invoked. Otherwise [handle] is invoked
    exactly once, with that status, and the handler registered for the
    VM on entry, if there is one, is invoked exactly once, with that
    status and the string the deciding step left on top of the stack. *)
Theorem run_script_reporting this src env (w : World H) v :
  vms w !! state_ this = Some v ->
  exists w',
    run_script this src env w
    = Done (fst (deciding_step src env (stack v, heap v)) =? 0)%Z w'
    /\ reports (calls_since w w')
       = (if (fst (deciding_step src env (stack v, heap v)) =? 0)%Z then []
          else call_handle (fst (deciding_step src env (stack v, heap v)))
                 (state_ this)
               :: handler_calls (handlers w) (state_ this)
                    (fst (deciding_step src env (stack v, heap v)))
                    (message_of (snd (deciding_step src env (stack v, heap v))))).
Proof.
  intros Hv.
  destruct (live_front (state_ this) w (ex_intro _ v Hv)) as (v0 & V & Hw).
  assert (v0 = v) as ->.
  { rewrite Hw in Hv. cbn [vms] in Hv. rewrite lookup_insert_eq in Hv.
    congruence. }
  destruct (run_script_exact this src env v V (handlers w) (cerr w) (calls w))
    as (v' & new & Hrun & _ & _ & Hreports).
  eexists. rewrite Hw at 1. split; [exact Hrun|].
  assert (Hnew : forall c',
             calls_since w
               (mkWorld (<[state_ this:=v']> V) (handlers w) c' (calls w ++ new))
             = new).
  { intros c'. unfold calls_since; cbn [calls]. by rewrite drop_app_length. }
  rewrite Hnew. exact Hreports.
Qed.

End Reporting.

Lemma run_script_reporting_witness :
  vms Mini.booted !! state_ Mini.owner
  = Some (mkVM [] (Some addr_default_panic)
            (Mini.mkHeap [] ["_G"; "string"] true))
  /\ exists w',
    run_script (E:=Mini.engine 503) Mini.owner (from_string "error('boom')")
      (table_ref 7) Mini.booted = Done false w'
    /\ reports (calls_since Mini.booted w')
       = [ call_handle 2 1%positive;
           call_handler addr_stderror_out 2 "failed: error('boom')" ].
Proof.
  assert (Hv : vms Mini.booted !! state_ Mini.owner
               = Some (mkVM [] (Some addr_default_panic)
                         (Mini.mkHeap [] ["_G"; "string"] true)))
    by (vm_compute; reflexivity).
  split; [exact Hv|].
  exact (run_script_reporting (E:=Mini.engine 503) Mini.owner
           (from_string "error('boom')") (table_ref 7) Mini.booted _ Hv).
Defined.

Section Handlers.
Context {H : Type} {E : LuaEngine H}.
Implicit Types (L : lua_State) (v : VM H) (V : gmap lua_State (VM H))
  (R : gmap lua_State function_type) (c : string) (cs : list Event).

Lemma settop_length_id (s : list TValue) :
  settop (Z.of_nat (length s)) s = s.
Proof.
  unfold settop. rewrite (proj2 (Z.leb_le 0 (Z.of_nat (length s)))) by lia.
  rewrite Nat2Z.id, take_ge, Nat.sub_diag by lia. apply app_nil_r.
Qed.

Lemma VM_eta v : mkVM (stack v) (panicf v) (heap v) = v.
Proof. by destruct v. Qed.

Lemma exec_setErrorHandler a L cr f v V R c cs :
  setErrorHandler (mkState a L cr) f (mkWorld (<[L:=v]> V) R c cs)
  = Done tt
      (mkWorld (<[L:=v]> V) (<[L:=f]> R) c
         (cs ++ [call_registerHandler L f;
                 call_lua_settop L (Z.of_nat (length (stack v)))])).
Proof.
  unfold setErrorHandler, ScopedSavedStack. exec.
  by rewrite settop_length_id, VM_eta, <- app_assoc.
Qed.

(** X4. [setErrorHandler] on a live VM returns and changes one thing:
    the registry entry of this VM. The VMs (stack, panic function and
    all) and the error stream are as before, and so is every other
    entry of the registry. Of two registrations in a row the second
    stands: the registry is the one before with the second handler for
    this VM. *)
Theorem setErrorHandler_replaces this f g (w : World H) :
  live (state_ this) w ->
  exists w1 w2,
    setErrorHandler this f w = Done tt w1
    /\ handlers w1 = <[state_ this:=f]> (handlers w)
    /\ vms w1 = vms w /\ cerr w1 = cerr w
    /\ setErrorHandler this g w1 = Done tt w2
    /\ handlers w2 = <[state_ this:=g]> (handlers w)
    /\ vms w2 = vms w /\ cerr w2 = cerr w.
Proof.
  intros Hlive. destruct (live_front _ _ Hlive) as (v & V & Hw).
  destruct this as [a L cr]; cbn [state_] in *.
  eexists _, _. rewrite Hw at 1.
  rewrite exec_setErrorHandler. split; [reflexivity|].
  rewrite exec_setErrorHandler. cbn [handlers vms cerr].
  rewrite insert_insert_eq.
  assert (vms w = <[L:=v]> V) as -> by (by rewrite Hw).
  by repeat split.
Qed.

(** X5. Indexing the handle on a live VM returns with the global table
    pushed on top of the stack of this VM and nothing else changed: the
    slots below, the rest of the VM, the other VMs, the registry and the
    error stream are as before. The reference returned names the VM, the
    key, the slot of the table (the old depth plus one, which is where
    the table is) and the old depth. *)
Theorem index_pushes_global_table this str (w : World H) :
  live (state_ this) w ->
  exists v w',
    vms w !! state_ this = Some v
    /\ index this str w
       = Done (mkTableKeyReference (state_ this)
                 (Z.of_nat (length (stack v)) + 1) str
                 (Z.of_nat (length (stack v)))) w'
    /\ vms w'
       = <[state_ this:=mkVM (stack v ++ [TTable (eng_globals (heap v))])
                          (panicf v) (heap v)]> (vms w)
    /\ (stack v ++ [TTable (eng_globals (heap v))]) !! length (stack v)
       = Some (TTable (eng_globals (heap v)))
    /\ handlers w' = handlers w /\ cerr w' = cerr w.
Proof.
  intros Hlive. destruct (live_front _ _ Hlive) as (v & V & Hw).
  exists v; eexists.
  assert (Hvms : vms w = <[state_ this:=v]> V) by (by rewrite Hw).
  split; [by rewrite Hvms, lookup_insert_eq|].
  rewrite Hw at 1. unfold index. exec. split; [reflexivity|].
  cbn [vms handlers cerr]. rewrite Hvms, insert_insert_eq.
  split; [reflexivity|]. split; [|done].
  rewrite lookup_app_r by lia. by rewrite Nat.sub_diag.
Qed.

End Handlers.

Lemma setErrorHandler_replaces_witness :
  live (state_ Mini.owner) Mini.booted /\
  exists w1 w2,
    setErrorHandler Mini.owner (user_function 1) Mini.booted = Done tt w1
    /\ handlers w1 = <[state_ Mini.owner:=user_function 1]> (handlers Mini.booted)
    /\ vms w1 = vms Mini.booted /\ cerr w1 = cerr Mini.booted
    /\ setErrorHandler Mini.owner (user_function 2) w1 = Done tt w2
    /\ handlers w2 = <[state_ Mini.owner:=user_function 2]> (handlers Mini.booted)
    /\ vms w2 = vms Mini.booted /\ cerr w2 = cerr Mini.booted.
Proof.
  assert (Hlive : live (state_ Mini.owner) Mini.booted)
    by (vm_compute; eauto).
  split; [exact Hlive|].
  exact (setErrorHandler_replaces Mini.owner (user_function 1) (user_function 2)
           Mini.booted Hlive).
Defined.

Lemma index_pushes_global_table_witness :
  live (state_ Mini.guest) Mini.foreign /\
  exists v w',
    vms Mini.foreign !! state_ Mini.guest = Some v
    /\ index (E:=Mini.engine 503) Mini.guest "x" Mini.foreign
       = Done (mkTableKeyReference (state_ Mini.guest)
                 (Z.of_nat (length (stack v)) + 1) "x"
                 (Z.of_nat (length (stack v)))) w'
    /\ vms w'
       = <[state_ Mini.guest:=
             mkVM (stack v ++ [TTable (eng_globals (LuaEngine:=Mini.engine 503) (heap v))])
               (panicf v) (heap v)]> (vms Mini.foreign)
    /\ (stack v ++ [TTable (eng_globals (LuaEngine:=Mini.engine 503) (heap v))])
         !! length (stack v)
       = Some (TTable (eng_globals (LuaEngine:=Mini.engine 503) (heap v)))
    /\ handlers w' = handlers Mini.foreign /\ cerr w' = cerr Mini.foreign.
Proof.
  assert (Hlive : live (state_ Mini.guest) Mini.foreign)
    by (vm_compute; eauto).
  split; [exact Hlive|].
  exact (index_pushes_global_table (E:=Mini.engine 503) Mini.guest "x"
           Mini.foreign Hlive).
Defined.

Section Construction.
Context {H : Type} {E : LuaEngine H}.
Implicit Types (L : lua_State) (v : VM H) (V : gmap lua_State (VM H))
  (R : gmap lua_State function_type) (c : string) (cs : list Event).

Lemma exec_init a L cr v V R c cs :
  init (mkState a L cr) (mkWorld (<[L:=v]> V) R c cs)
  = Done tt
      (mkWorld
         (<[L:=mkVM (fst (eng_reg_functor_destructor (stack v, heap v)))
                  (panicf v)
                  (snd (eng_reg_functor_destructor (stack v, heap v)))]> V)
         (defaulted L R) c (cs ++ init_calls L R (length (stack v)))).
Proof.
  unfold init, bind. cbn [state_]. rewrite exec_getHandler.
  unfold defaulted, init_calls.
  destruct (R !! L).
  - unfold ret. cbv beta iota. by rewrite exec_reg_functor_destructor.
  - rewrite exec_setErrorHandler. cbv beta iota.
    rewrite exec_reg_functor_destructor. cbv zeta. by rewrite <- app_assoc.
Qed.

(** A fresh constructor is its creation call, the panic trap and
    [init], whose calls are fixed, and then the loading of libraries. *)
Lemma construct_fresh_eq k V R c cs :
  fresh_mode k = true ->
  construct k (mkWorld V R c cs)
  = (load_of k (mkState (allocator_of k) (fresh (dom V)) true) >>
     ret (mkState (allocator_of k) (fresh (dom V)) true))
      (mkWorld (<[fresh (dom V):=set_up]> V) (defaulted (fresh (dom V)) R) c
         (cs ++ create_call k (fresh (dom V))
             :: call_lua_atpanic (fresh (dom V)) addr_default_panic
             :: init_calls (fresh (dom V)) R 0)).
Proof.
  intros Hfresh. destruct k as [|a|libs|libs a|lua]; [| | | |discriminate];
    cbn [construct load_of allocator_of];
    unfold State_default, State_allocator, State_libs, State_libs_allocator,
      create_call, set_up; cbn [allocator_of];
    unfold bind at 1; rewrite ?exec_luaL_newstate, ?exec_lua_newstate;
    unfold bind at 1 2; rewrite exec_atpanic;
    cbv beta iota; rewrite exec_init; cbn [stack panicf heap length];
    rewrite <- !app_assoc; reflexivity.
Qed.

(** The loop again, with all that its calls are. *)
Lemma openlibs_list_trace this libs V R c : forall v cs,
  exists v' new,
    panicf v' = panicf v
    /\ Forall (fun e => is_openlibs e = false) new
    /\ (openlibs_list this libs (mkWorld (<[state_ this:=v]> V) R c cs)
        = Done tt (mkWorld (<[state_ this:=v']> V) R c (cs ++ new))
        /\ library_calls new = map (requiref_call (state_ this)) libs
        \/ openlibs_list this libs (mkWorld (<[state_ this:=v]> V) R c cs)
           = Thrown (mkWorld (<[state_ this:=v']> V) R c (cs ++ new))).
Proof.
  induction libs as [|it rest IH]; intros v cs.
  - exists v, []. split; [done|]. split; [constructor|]. left.
    cbn. unfold ret. by rewrite app_nil_r.
  - rewrite exec_openlibs_cons.
    destruct (eng_requiref _ _ _ _) as [i|i].
    + set (v1 := mkVM _ _ _).
      destruct (IH v1 (cs ++ [requiref_call (state_ this) it;
                              call_lua_settop (state_ this)
                                (Z.of_nat (length (stack v)))]))
        as (v' & new & Hp & Hall & Hrun).
      exists v', (requiref_call (state_ this) it
                  :: call_lua_settop (state_ this) (Z.of_nat (length (stack v)))
                  :: new).
      split; [done|]. split; [by repeat constructor|].
      rewrite <- app_assoc in Hrun. cbn [app] in Hrun.
      destruct Hrun as [[-> Hcalls]| ->]; [left|by right].
      split; [done|]. cbn. by rewrite <- Hcalls.
    + exists (mkVM (fst i) (panicf v) (snd i)), [requiref_call (state_ this) it].
      split; [reflexivity|]. split; [by repeat constructor|]. by right.
Qed.

(** A fresh constructor, from the first call to the last. *)
Lemma construct_fresh_world k V R c cs :
  fresh_mode k = true ->
  exists v' new,
    panicf v' = Some addr_default_panic
    /\ (construct k (mkWorld V R c cs)
        = Done (mkState (allocator_of k) (fresh (dom V)) true)
            (mkWorld (<[fresh (dom V):=v']> V) (defaulted (fresh (dom V)) R) c
               (cs ++ create_call k (fresh (dom V))
                   :: call_lua_atpanic (fresh (dom V)) addr_default_panic
                   :: init_calls (fresh (dom V)) R 0 ++ new))
        \/ takes_libs k = true
           /\ construct k (mkWorld V R c cs)
              = Thrown
                  (mkWorld (<[fresh (dom V):=v']> V) (defaulted (fresh (dom V)) R) c
                     (cs ++ create_call k (fresh (dom V))
                         :: call_lua_atpanic (fresh (dom V)) addr_default_panic
                         :: init_calls (fresh (dom V)) R 0 ++ new)))
    /\ match k with
       | ctor_libs libs | ctor_libs_allocator libs _ =>
           Forall (fun e => is_openlibs e = false) new
           /\ (forall this w',
                 construct k (mkWorld V R c cs) = Done this w' ->
                 library_calls new = map (requiref_call (fresh (dom V))) libs)
       | _ => exists n, new = [call_luaL_openlibs (fresh (dom V));
                               call_lua_settop (fresh (dom V)) n]
       end.
Proof.
  intros Hfresh. rewrite (construct_fresh_eq k V R c cs Hfresh).
  set (L := fresh (dom V)). set (cs1 := cs ++ _).
  assert (Hcs : forall new, cs1 ++ new
                  = cs ++ create_call k L
                       :: call_lua_atpanic L addr_default_panic
                       :: init_calls L R 0 ++ new).
  { intros new. unfold cs1. by rewrite <- app_assoc. }
  destruct k as [|a|libs|libs a|lua]; [| | | |discriminate];
    cbn [load_of allocator_of takes_libs]; unfold bind.
  1-2: unfold openlibs, ScopedSavedStack; exec;
    eexists _, _; (split; [|split]);
    [ | left; rewrite <- app_assoc, Hcs; reflexivity | ];
    [ reflexivity | eexists; reflexivity ].
  all: match goal with
       | |- context [openlibs_list ?this ?l] =>
           destruct (openlibs_list_trace this l V (defaulted L R) c set_up cs1)
             as (v' & new & Hp & Hall & [[Hrun Hcalls]|Hrun]);
             cbn [state_] in Hrun, Hcalls || cbn [state_] in Hrun
       end;
    exists v', new; (split; [by rewrite Hp|]);
    rewrite Hrun, <- Hcs; unfold ret.
  - split; [by left|]. by split.
  - split; [by right|]. split; [done|]. intros this w' [=].
  - split; [by left|]. by split.
  - split; [by right|]. split; [done|]. intros this w' [=].
Qed.

Lemma fresh_not_live V : V !! fresh (dom V) = (None : option (VM H)).
Proof. apply not_elem_of_dom. apply is_fresh. Qed.

Lemma defaulted_has L R : is_Some (defaulted L R !! L).
Proof.
  unfold defaulted. destruct (R !! L) eqn:HR.
  - by rewrite HR.
  - by rewrite lookup_insert_eq.
Qed.

Lemma init_calls_defaulted L R n :
  init_calls L (defaulted L R) n = [call_reg_functor_destructor L].
Proof.
  unfold init_calls. by destruct (defaulted_has L R) as [f ->].
Qed.

Lemma defaulted_idemp L R : defaulted L (defaulted L R) = defaulted L R.
Proof.
  unfold defaulted at 1. by destruct (defaulted_has L R) as [f ->].
Qed.

Lemma init_calls_plain L R n :
  Forall (fun e => is_openlibs e = false) (init_calls L R n)
  /\ library_calls (init_calls L R n) = [].
Proof.
  unfold init_calls. by destruct (R !! L); repeat constructor.
Qed.

(** X6. The order of a fresh construction, in all four modes and in
    every world: the VM is created, the very next call sets
    [&default_panic] as its panic function, then [init] runs (the
    default handler if the VM has none, the destructor registration),
    and only after that is any library loaded. So whatever goes wrong
    while libraries are loaded, also an error that ends the constructor,
    finds the trap in place. *)
Theorem construction_order k (w : World H) :
  fresh_mode k = true ->
  exists w' rest,
    final (construct k w) = Some w'
    /\ calls_since w w'
       = create_call k (vm_of k w)
         :: call_lua_atpanic (vm_of k w) addr_default_panic
         :: init_calls (vm_of k w) (handlers w) 0 ++ rest
    /\ panic_of (vm_of k w) w' = Some addr_default_panic.
Proof.
  intros Hfresh. destruct w as [V R c cs].
  assert (HL : vm_of k (mkWorld V R c cs) = fresh (dom V))
    by (by destruct k).
  rewrite HL. cbn [handlers].
  destruct (construct_fresh_world k V R c cs Hfresh)
    as (v' & new & Hp & [Hrun|[_ Hrun]] & _);
    rewrite Hrun; eexists _, new; (split; [reflexivity|]);
    rewrite calls_since_app, panic_of_front; by split.
Qed.

(** X7. Which libraries a fresh construction loads. The two modes with
    a list call [luaL_requiref] for the entries of the list, in order,
    and never [luaL_openlibs]: with the empty list the VM gets no
    library at all. The two modes without a list call [luaL_openlibs]
    once and [luaL_requiref] never. *)
Theorem construction_libraries k (w : World H) :
  fresh_mode k = true ->
  exists w',
    final (construct k w) = Some w'
    /\ match k with
       | ctor_libs libs | ctor_libs_allocator libs _ =>
           Forall (fun e => is_openlibs e = false) (calls_since w w')
           /\ (forall this, construct k w = Done this w' ->
                library_calls (calls_since w w')
                = map (requiref_call (vm_of k w)) libs)
       | _ =>
           library_calls (calls_since w w') = []
           /\ List.filter is_openlibs (calls_since w w')
              = [call_luaL_openlibs (vm_of k w)]
       end.
Proof.
  intros Hfresh. destruct w as [V R c cs].
  assert (HL : vm_of k (mkWorld V R c cs) = fresh (dom V))
    by (by destruct k).
  rewrite HL.
  destruct (init_calls_plain (fresh (dom V)) R 0) as [Hplain Hnone].
  destruct (construct_fresh_world k V R c cs Hfresh)
    as (v' & new & Hp & Hrun & Hnew).
  assert (Hlib : library_calls
                   (create_call k (fresh (dom V))
                    :: call_lua_atpanic (fresh (dom V)) addr_default_panic
                    :: init_calls (fresh (dom V)) R 0 ++ new)
                 = library_calls new).
  { change (library_calls
              ([create_call k (fresh (dom V));
                call_lua_atpanic (fresh (dom V)) addr_default_panic]
               ++ init_calls (fresh (dom V)) R 0 ++ new) = library_calls new).
    rewrite !library_calls_app, Hnone.
    unfold create_call. by destruct (allocator_of k). }
  assert (Hopen : List.filter is_openlibs
                    (create_call k (fresh (dom V))
                     :: call_lua_atpanic (fresh (dom V)) addr_default_panic
                     :: init_calls (fresh (dom V)) R 0 ++ new)
                  = List.filter is_openlibs new).
  { change (List.filter is_openlibs
              ([create_call k (fresh (dom V));
                call_lua_atpanic (fresh (dom V)) addr_default_panic]
               ++ init_calls (fresh (dom V)) R 0 ++ new)
            = List.filter is_openlibs new).
    rewrite !List.filter_app.
    assert (List.filter is_openlibs (init_calls (fresh (dom V)) R 0) = []) as ->.
    { unfold init_calls. by destruct (R !! fresh (dom V)). }
    unfold create_call. by destruct (allocator_of k). }
  assert (Hall' : Forall (fun e => is_openlibs e = false) new ->
                  Forall (fun e => is_openlibs e = false)
                    (create_call k (fresh (dom V))
                     :: call_lua_atpanic (fresh (dom V)) addr_default_panic
                     :: init_calls (fresh (dom V)) R 0 ++ new)).
  { intros Hall. constructor; [unfold create_call; by destruct (allocator_of k)|].
    constructor; [done|]. rewrite Forall_app. by split. }
  assert (Hfinal : exists w',
             final (construct k (mkWorld V R c cs)) = Some w'
             /\ calls_since (mkWorld V R c cs) w'
                = create_call k (fresh (dom V))
                  :: call_lua_atpanic (fresh (dom V)) addr_default_panic
                  :: init_calls (fresh (dom V)) R 0 ++ new).
  { destruct Hrun as [Hrun|[_ Hrun]]; rewrite Hrun; eexists;
      (split; [reflexivity|]); by rewrite calls_since_app. }
  destruct Hfinal as (w' & Hfinal & Hsince). exists w'.
  split; [exact Hfinal|]. rewrite Hsince, Hlib, Hopen.
  destruct k as [|a|libs|libs a|lua]; try discriminate.
  - by destruct Hnew as [n ->].
  - by destruct Hnew as [n ->].
  - destruct Hnew as [Hall Hcalls]. split; [by apply Hall'|].
    intros this Hdone. by eapply Hcalls.
  - destruct Hnew as [Hall Hcalls]. split; [by apply Hall'|].
    intros this Hdone. by eapply Hcalls.
Qed.

(** The world a construction that returns ends in. *)
Lemma construct_done_world k (w : World H) this w' :
  (fresh_mode k = false -> live (vm_of k w) w) ->
  construct k w = Done this w' ->
  this = mkState (allocator_of k) (vm_of k w) (fresh_mode k)
  /\ exists v' V new,
      w' = mkWorld (<[vm_of k w:=v']> V) (defaulted (vm_of k w) (handlers w))
             (cerr w) (calls w ++ new)
      /\ (fresh_mode k = true -> V = vms w).
Proof.
  intros Hlive Hdone. destruct (fresh_mode k) eqn:Hfresh.
  - destruct w as [V R c cs].
    assert (HL : vm_of k (mkWorld V R c cs) = fresh (dom V))
      by (by destruct k).
    rewrite HL in *. cbn [handlers cerr calls vms].
    destruct (construct_fresh_world k V R c cs Hfresh)
      as (v' & new & _ & [Hrun|[_ Hrun]] & _);
      rewrite Hrun in Hdone; [|discriminate].
    injection Hdone as <- <-. split; [reflexivity|].
    by eexists v', V, _.
  - destruct k as [| | | |lua]; try discriminate.
    cbn [vm_of construct allocator_of] in *.
    destruct (live_front _ _ (Hlive eq_refl)) as (v & V & Hw).
    unfold State_adopt, bind in Hdone. rewrite Hw in Hdone at 1.
    rewrite exec_init in Hdone. unfold ret in Hdone.
    injection Hdone as <- <-. split; [reflexivity|].
    eexists _, V, _. by split.
Qed.

(** X8. An owning handle made and destroyed: [State(...)] in a fresh
    mode followed by [~State()] leaves the VMs exactly as they were
    before the construction, the new VM is gone, but the entry that
    construction made in the handler registry for it is still there:
    the destructor closes the VM and unregisters nothing. *)
Theorem construct_then_destroy k (w : World H) this w' :
  fresh_mode k = true ->
  construct k w = Done this w' ->
  exists w'',
    State_destroy this w' = Done tt w''
    /\ vms w'' = vms w
    /\ ~ live (state_ this) w''
    /\ handlers w'' = defaulted (state_ this) (handlers w)
    /\ is_Some (handlers w'' !! state_ this).
Proof.
  intros Hfresh Hdone.
  destruct (construct_done_world k w this w') as (-> & v' & V & new & -> & HV);
    [by rewrite Hfresh|done|].
  rewrite (HV Hfresh), Hfresh.
  assert (HL : vm_of k w = fresh (dom (vms w))) by (by destruct k).
  rewrite HL. unfold State_destroy; cbn [created_ state_].
  rewrite exec_close. eexists; split; [reflexivity|].
  cbn [vms handlers]. rewrite delete_id by apply fresh_not_live.
  split; [reflexivity|]. split.
  - unfold live; cbn [vms]. rewrite fresh_not_live. by intros [? ?].
  - split; [reflexivity|]. apply defaulted_has.
Qed.

(** X9. A second handle made by adoption. Once any constructor has
    returned a handle, adopting the VM of that handle returns a handle
    that does not own it and changes neither the registry nor the panic
    function nor the error stream: the only call made is the destructor
    registration of [init]; no handler is registered again. *)
Theorem adopt_after_construct k (w : World H) this w' :
  (fresh_mode k = false -> live (vm_of k w) w) ->
  construct k w = Done this w' ->
  exists w'',
    State_adopt (state_ this) w' = Done (mkState None (state_ this) false) w''
    /\ handlers w'' = handlers w'
    /\ panic_of (state_ this) w'' = panic_of (state_ this) w'
    /\ cerr w'' = cerr w'
    /\ calls_since w' w'' = [call_reg_functor_destructor (state_ this)].
Proof.
  intros Hlive Hdone.
  destruct (construct_done_world k w this w' Hlive Hdone)
    as (-> & v' & V & new & -> & _).
  cbn [state_]. unfold State_adopt, bind. rewrite exec_init. unfold ret.
  eexists; split; [reflexivity|].
  cbn [handlers cerr]. rewrite defaulted_idemp, init_calls_defaulted.
  rewrite calls_since_app, !panic_of_front. by repeat split.
Qed.

End Construction.

Lemma construction_order_witness :
  fresh_mode (ctor_libs Mini.three_libs) = true /\
  exists w' rest,
    final (construct (E:=Mini.engine 503) (ctor_libs Mini.three_libs) Mini.booted)
    = Some w'
    /\ calls_since Mini.booted w'
       = create_call (ctor_libs Mini.three_libs)
           (vm_of (ctor_libs Mini.three_libs) Mini.booted)
         :: call_lua_atpanic (vm_of (ctor_libs Mini.three_libs) Mini.booted)
              addr_default_panic
         :: init_calls (vm_of (ctor_libs Mini.three_libs) Mini.booted)
              (handlers Mini.booted) 0 ++ rest
    /\ panic_of (vm_of (ctor_libs Mini.three_libs) Mini.booted) w'
       = Some addr_default_panic.
Proof.
  split; [reflexivity|].
  exact (construction_order (E:=Mini.engine 503) (ctor_libs Mini.three_libs)
           Mini.booted eq_refl).
Defined.

Lemma construction_libraries_witness :
  fresh_mode (ctor_libs NoLoadLib) = true /\
  exists w',
    final (construct (E:=Mini.engine 503) (ctor_libs NoLoadLib) Mini.nothing)
    = Some w'
    /\ Forall (fun e => is_openlibs e = false) (calls_since Mini.nothing w')
    /\ (forall this,
          construct (E:=Mini.engine 503) (ctor_libs NoLoadLib) Mini.nothing
          = Done this w' ->
          library_calls (calls_since Mini.nothing w') = []).
Proof.
  split; [reflexivity|].
  exact (construction_libraries (E:=Mini.engine 503) (ctor_libs NoLoadLib)
           Mini.nothing eq_refl).
Defined.

Lemma construct_then_destroy_witness :
  exists this w',
    fresh_mode (ctor_default) = true
    /\ construct (E:=Mini.engine 503) ctor_default Mini.nothing = Done this w'
    /\ exists w'',
        State_destroy this w' = Done tt w''
        /\ vms w'' = vms Mini.nothing
        /\ ~ live (state_ this) w''
        /\ handlers w'' = defaulted (state_ this) (handlers Mini.nothing)
        /\ is_Some (handlers w'' !! state_ this).
Proof.
  assert (Hrun : exists this w',
             construct (E:=Mini.engine 503) ctor_default Mini.nothing
             = Done this w')
    by (eexists _, _; vm_compute; reflexivity).
  destruct Hrun as (this & w' & Hrun). exists this, w'.
  split; [reflexivity|]. split; [exact Hrun|].
  exact (construct_then_destroy (E:=Mini.engine 503) ctor_default Mini.nothing
           this w' eq_refl Hrun).
Defined.

Lemma adopt_after_construct_witness :
  exists this w',
    (fresh_mode (ctor_adopt 1%positive) = false ->
     live (vm_of (ctor_adopt 1%positive) Mini.foreign) Mini.foreign)
    /\ construct (E:=Mini.engine 503) (ctor_adopt 1%positive) Mini.foreign
       = Done this w'
    /\ exists w'',
        State_adopt (E:=Mini.engine 503) (state_ this) w'
        = Done (mkState None (state_ this) false) w''
        /\ handlers w'' = handlers w'
        /\ panic_of (state_ this) w'' = panic_of (state_ this) w'
        /\ cerr w'' = cerr w'
        /\ calls_since w' w'' = [call_reg_functor_destructor (state_ this)].
Proof.
  assert (Hlive : fresh_mode (ctor_adopt 1%positive) = false ->
                  live (vm_of (ctor_adopt 1%positive) Mini.foreign) Mini.foreign)
    by (intros _; vm_compute; eauto).
  assert (Hrun : exists this w',
             construct (E:=Mini.engine 503) (ctor_adopt 1%positive) Mini.foreign
             = Done this w')
    by (eexists _, _; vm_compute; reflexivity).
  destruct Hrun as (this & w' & Hrun). exists this, w'.
  split; [exact Hlive|]. split; [exact Hrun|].
  exact (adopt_after_construct (E:=Mini.engine 503) (ctor_adopt 1%positive)
           Mini.foreign this w' Hlive Hrun).
Defined.

Section Sessions.
Context {H : Type} {E : LuaEngine H}.

(** X13. The default diagnostics, end to end. Take a handle that a
    constructor returned for a VM that had no handler before, and a run
    of [dofile] or [dostring] on it that returns false. The step that
    decided the run has a non-zero status; [handle] was invoked once
    with that status and [&stderror_out] once with that status and the
    string that step left on top of the stack; and the error stream has
    grown by exactly that string followed by a newline. *)
Theorem failed_run_writes_one_line k (w : World H) this w' src env w'' :
  (fresh_mode k = false -> live (vm_of k w) w) ->
  handlers w !! vm_of k w = None ->
  construct k w = Done this w' ->
  run_script this src env w' = Done false w'' ->
  exists v',
    vms w' !! state_ this = Some v'
    /\ fst (deciding_step src env (stack v', heap v')) <> 0%Z
    /\ reports (calls_since w' w'')
       = [ call_handle (fst (deciding_step src env (stack v', heap v')))
             (state_ this);
           call_handler addr_stderror_out
             (fst (deciding_step src env (stack v', heap v')))
             (message_of (snd (deciding_step src env (stack v', heap v')))) ]
    /\ cerr w''
       = cerr w'
         +:+ message_of (snd (deciding_step src env (stack v', heap v')))
         +:+ newline.
Proof.
  intros Hlive Hnone Hdone Hrun.
  destruct (construct_done_world k w this w' Hlive Hdone)
    as (-> & v' & V & new & -> & _).
  destruct (run_script_exact
              (mkState (allocator_of k) (vm_of k w) (fresh_mode k)) src env
              v' V (defaulted (vm_of k w) (handlers w)) (cerr w) (calls w ++ new))
    as (v'' & new' & Hrun' & _ & _ & Hreports).
  cbn [state_] in *. rewrite Hrun' in Hrun.
  injection Hrun as Hb <-.
  exists v'. split; [cbn [vms]; by rewrite lookup_insert_eq|].
  split; [by apply Z.eqb_neq|].
  rewrite calls_since_app, Hreports, Hb. cbn [cerr].
  unfold handler_calls, handler_output, defaulted. rewrite Hnone.
  by rewrite lookup_insert_eq.
Qed.

End Sessions.

Lemma failed_run_writes_one_line_witness :
  exists this w' w'',
    (fresh_mode ctor_default = false ->
     live (vm_of ctor_default Mini.nothing) Mini.nothing)
    /\ handlers Mini.nothing !! vm_of ctor_default Mini.nothing = None
    /\ construct (E:=Mini.engine 503) ctor_default Mini.nothing = Done this w'
    /\ run_script (E:=Mini.engine 503) this (from_string "error('boom')") nilref w'
       = Done false w''
    /\ exists v',
        vms w' !! state_ this = Some v'
        /\ fst (deciding_step (E:=Mini.engine 503) (from_string "error('boom')")
                  nilref (stack v', heap v')) <> 0%Z
        /\ reports (calls_since w' w'')
           = [ call_handle
                 (fst (deciding_step (E:=Mini.engine 503)
                         (from_string "error('boom')") nilref (stack v', heap v')))
                 (state_ this);
               call_handler addr_stderror_out
                 (fst (deciding_step (E:=Mini.engine 503)
                         (from_string "error('boom')") nilref (stack v', heap v')))
                 (message_of (E:=Mini.engine 503)
                    (snd (deciding_step (E:=Mini.engine 503)
                            (from_string "error('boom')") nilref
                            (stack v', heap v')))) ]
        /\ cerr w''
           = cerr w'
             +:+ message_of (E:=Mini.engine 503)
                   (snd (deciding_step (E:=Mini.engine 503)
                           (from_string "error('boom')") nilref
                           (stack v', heap v')))
             +:+ newline.
Proof.
  assert (Hlive : fresh_mode ctor_default = false ->
                  live (vm_of ctor_default Mini.nothing) Mini.nothing)
    by (intros [=]).
  assert (Hnone : handlers Mini.nothing !! vm_of ctor_default Mini.nothing = None)
    by reflexivity.
  assert (Hrun : exists this w' w'',
             construct (E:=Mini.engine 503) ctor_default Mini.nothing = Done this w'
             /\ run_script (E:=Mini.engine 503) this (from_string "error('boom')")
                  nilref w' = Done false w'')
    by (eexists _, _, _; split; vm_compute; reflexivity).
  destruct Hrun as (this & w' & w'' & Hdone & Hrun). exists this, w', w''.
  split; [exact Hlive|]. split; [exact Hnone|].
  split; [exact Hdone|]. split; [exact Hrun|].
  exact (failed_run_writes_one_line (E:=Mini.engine 503) ctor_default Mini.nothing
           this w' (from_string "error('boom')") nilref w'' Hlive Hnone Hdone Hrun).
Defined.

End Kaguya.

(* ===================================================================== *)
(** * Part V: the allocation callback                                     *)
(* ===================================================================== *)

Module AllocatorFacts.
Import AllocatorBridge.

Section Facts.
Variable Heap : Type.
Variable std_malloc : size_type -> Heap -> pointer * Heap.
Variable std_realloc : pointer -> size_type -> Heap -> pointer * Heap.
Variable std_free : pointer -> Heap -> Heap.

Lemma AllocatorFunction_cases {A} `{Allocator Heap A} ud ptr osize nsize h :
  callback_spec std_realloc ptr osize nsize h ud
    (AllocatorFunction std_realloc ud ptr osize nsize h).
Proof.
  unfold AllocatorFunction. destruct ud as [a|].
  - destruct (N.eqb_spec nsize 0) as [Hn|Hn].
    + destruct (deallocate ptr osize a h) as [[[]|e] [a' h']] eqn:Hd.
      * by apply spec_free.
      * by apply (spec_free_raises _ _ _ _ _ _ a e).
    + destruct (N.eqb_spec ptr NULL) as [Hp|Hp]; cbn.
      * destruct (allocate nsize a h) as [o [a' h']] eqn:Ha.
        by apply spec_allocate.
      * destruct (reallocate ptr nsize a h) as [o [a' h']] eqn:Hr.
        by apply spec_reallocate.
  - destruct (std_realloc ptr nsize h) as [p h'] eqn:Hr.
    pose proof (spec_no_allocator Heap std_realloc (A:=A) ptr osize nsize h) as Hs.
    by rewrite Hr in Hs.
Qed.

(** C6, as the code has it. Each call of the callback is one of the
    cases of [callback_spec]: null userdata goes to the host's
    [realloc]; otherwise a new size of zero frees the block of the old
    size through the allocator and answers null, a non-null block with
    a non-zero new size is reallocated, a null block with a non-zero
    new size is allocated afresh, and the answer is the allocator's.
    The callback raises nothing of its own: it never raises with null
    userdata or with [DefaultAllocator], and with another allocator it
    raises exactly what the member function it called raised. *)
Theorem AllocatorFunction_dispatch {A} `{Allocator Heap A}
    (ud : option A) ptr osize nsize h :
  callback_spec std_realloc ptr osize nsize h ud
    (AllocatorFunction std_realloc ud ptr osize nsize h)
  /\ returned (fst (AllocatorFunction (A:=A) std_realloc None ptr osize nsize h))
     = true
  /\ never_raises std_realloc (DefaultAllocator)
       (H:=DefaultAllocator_Allocator Heap std_malloc std_realloc std_free).
Proof.
  split; [apply AllocatorFunction_cases|]. split.
  - cbn. by destruct (std_realloc ptr nsize h).
  - intros [[]|] p os ns h0; cbn.
    + destruct (ns =? 0)%N; [done|].
      destruct (negb (p =? NULL)%N); cbn.
      * by destruct (std_realloc p ns h0).
      * by destruct (std_malloc ns h0).
    + by destruct (std_realloc p ns h0).
Qed.

(** X10. The old size reaches the allocator only when a block is freed.
    For a non-zero new size the callback passes the block and the new
    size alone, so its outcome, the allocator object and the heap after
    the call are the same whatever old size the VM reports; an allocator
    that needs the size of a block it reallocates has to keep it itself.
    With [DefaultAllocator] the old size never matters, since
    [deallocate] hands the block to [std::free] and drops the size. *)
Theorem old_size_only_when_freeing {A} `{Allocator Heap A}
    (ud : option A) ptr osize1 osize2 nsize h :
  nsize <> 0%N ->
  AllocatorFunction std_realloc ud ptr osize1 nsize h
  = AllocatorFunction std_realloc ud ptr osize2 nsize h
  /\ forall (d : option DefaultAllocator) n,
      AllocatorFunction
        (H:=DefaultAllocator_Allocator Heap std_malloc std_realloc std_free)
        std_realloc d ptr osize1 n h
      = AllocatorFunction
          (H:=DefaultAllocator_Allocator Heap std_malloc std_realloc std_free)
          std_realloc d ptr osize2 n h.
Proof.
  intros Hn. split.
  - unfold AllocatorFunction. destruct ud as [a|]; [|reflexivity].
    by destruct (N.eqb_spec nsize 0).
  - intros [d|] n; reflexivity.
Qed.

(** X11. With [DefaultAllocator] the callback answers as the fallback
    for null userdata does, on a host whose [realloc] of a null block
    is [malloc] and whose [realloc] to size zero of a non-null block
    frees it and answers null: same pointer and same heap, for every
    call except the one with a null block and a new size of zero, where
    the callback frees and answers null and the fallback asks
    [realloc]. *)
Theorem DefaultAllocator_as_fallback
    (d : DefaultAllocator) ptr osize nsize h :
  (forall n h0, std_realloc NULL n h0 = std_malloc n h0) ->
  (forall p h0, p <> NULL -> std_realloc p 0%N h0 = (NULL, std_free p h0)) ->
  nsize <> 0%N \/ ptr <> NULL ->
  let custom :=
    AllocatorFunction
      (H:=DefaultAllocator_Allocator Heap std_malloc std_realloc std_free)
      std_realloc (Some d) ptr osize nsize h in
  let fallback :=
    AllocatorFunction
      (H:=DefaultAllocator_Allocator Heap std_malloc std_realloc std_free)
      std_realloc None ptr osize nsize h in
  fst custom = fst fallback /\ snd (snd custom) = snd (snd fallback).
Proof.
  intros Hnull Hzero Hcase. cbn.
  destruct (N.eqb_spec nsize 0) as [->|Hn].
  - destruct Hcase as [Hcase|Hp]; [done|].
    rewrite (Hzero ptr h Hp). by split.
  - destruct (N.eqb_spec ptr NULL) as [->|Hp]; cbn.
    + rewrite Hnull. by destruct (std_malloc nsize h).
    + by destruct (std_realloc ptr nsize h).
Qed.

End Facts.

Lemma old_size_only_when_freeing_witness :
  8%N <> 0%N /\
  (AllocatorFunction (H:=Bump.Budgeted_Allocator) Bump.realloc
     (Some {| Bump.budget := 64 |}) 100%N 16%N 8%N 200%N
   = AllocatorFunction (H:=Bump.Budgeted_Allocator) Bump.realloc
       (Some {| Bump.budget := 64 |}) 100%N 0%N 8%N 200%N
   /\ forall (d : option DefaultAllocator) n,
       AllocatorFunction
         (H:=DefaultAllocator_Allocator Bump.Heap Bump.malloc Bump.realloc Bump.free)
         Bump.realloc d 100%N 16%N n 200%N
       = AllocatorFunction
           (H:=DefaultAllocator_Allocator Bump.Heap Bump.malloc Bump.realloc Bump.free)
           Bump.realloc d 100%N 0%N n 200%N).
Proof.
  assert (Hn : 8%N <> 0%N) by discriminate.
  split; [exact Hn|].
  exact (old_size_only_when_freeing Bump.Heap Bump.malloc Bump.realloc Bump.free
           (H:=Bump.Budgeted_Allocator)
           (Some {| Bump.budget := 64 |}) 100%N 16%N 0%N 8%N 200%N Hn).
Defined.

Lemma DefaultAllocator_as_fallback_witness :
  (forall n h0, Bump.realloc NULL n h0 = Bump.malloc n h0)
  /\ (forall p h0, p <> NULL -> Bump.realloc p 0%N h0 = (NULL, Bump.free p h0))
  /\ (16%N <> 0%N \/ NULL <> NULL)
  /\ fst (AllocatorFunction
            (H:=DefaultAllocator_Allocator Bump.Heap Bump.malloc Bump.realloc Bump.free)
            Bump.realloc (Some DefaultAllocator_obj) NULL 0%N 16%N 100%N)
     = fst (AllocatorFunction
              (H:=DefaultAllocator_Allocator Bump.Heap Bump.malloc Bump.realloc Bump.free)
              Bump.realloc None NULL 0%N 16%N 100%N)
  /\ snd (snd (AllocatorFunction
                 (H:=DefaultAllocator_Allocator Bump.Heap Bump.malloc Bump.realloc Bump.free)
                 Bump.realloc (Some DefaultAllocator_obj) NULL 0%N 16%N 100%N))
     = snd (snd (AllocatorFunction
                   (H:=DefaultAllocator_Allocator Bump.Heap Bump.malloc Bump.realloc Bump.free)
                   Bump.realloc None NULL 0%N 16%N 100%N)).
Proof.
  assert (Hnull : forall n h0, Bump.realloc NULL n h0 = Bump.malloc n h0)
    by reflexivity.
  assert (Hzero : forall p h0, p <> NULL ->
                    Bump.realloc p 0%N h0 = (NULL, Bump.free p h0))
    by reflexivity.
  assert (Hcase : 16%N <> 0%N \/ NULL <> NULL) by (left; discriminate).
  split; [exact Hnull|]. split; [exact Hzero|]. split; [exact Hcase|].
  exact (DefaultAllocator_as_fallback Bump.Heap Bump.malloc Bump.realloc Bump.free
           DefaultAllocator_obj NULL 0%N 16%N 100%N Hnull Hzero Hcase).
Defined.

Example DefaultAllocator_fresh_block :
  AllocatorFunction (A:=DefaultAllocator)
    (H:=DefaultAllocator_Allocator _ Bump.malloc Bump.realloc Bump.free)
    Bump.realloc (Some DefaultAllocator_obj) NULL 0%N 16%N 100%N
  = (Returns 100%N, (Some DefaultAllocator_obj, 116%N)).
Proof. reflexivity. Qed.

Example Budgeted_raises :
  AllocatorFunction (H:=Bump.Budgeted_Allocator) Bump.realloc
    (Some {| Bump.budget := 4 |}) NULL 0%N 8%N 100%N
  = (Raises "bad_alloc", (Some {| Bump.budget := 4 |}, 100%N)).
Proof. reflexivity. Qed.

(** C6, as the claim states it, fails: an allocator that reports
    exhaustion by raising makes the callback raise. With 4 bytes left, a
    request for 8 is not answered by null. *)
Lemma callback_raises_with_allocator :
  ~ @never_raises Bump.Heap Bump.realloc Bump.Budgeted Bump.Budgeted_Allocator.
Proof.
  intros Hnever.
  specialize (Hnever (Some {| Bump.budget := 4 |}) NULL 0%N 8%N 100%N).
  vm_compute in Hnever. discriminate.
Qed.

End AllocatorFacts.
